(** * BBQ11: the pay-then-generate flow of the image generator

    A shallow embedding of the two [ImageGenerator] components (the one that
    polls for the payment confirmation and the one that waits a fixed
    second) and of the [POST] handler of [app/api/generate/route.ts].

    Conventions.
    - A React handler is a closure over the values of one render.  The
      values it reads ([prompt], [uploadedImage], [toastId], ...) are taken
      from the render's snapshot; the setters it calls act on the live
      component state, which is threaded through the handler together with
      the list of effects it performs.
    - Everything the handlers obtain from their collaborators (the toast
      library, [fetch], the clock, the Replicate client) is an input of the
      model, gathered in an environment record.
    - A string is the sequence of its code units, here those below 256. *)

From Stdlib Require Import String Ascii List ZArith NArith Bool Arith Lia.
From Stdlib Require Import DecimalString.
From Equations Require Import Equations.
Import ListNotations.
Open Scope string_scope.
Set Warnings "-register-all".

(** ** JavaScript values used by the code *)

(** [String.prototype.trim] removes white space and line terminators from
    both ends.  In the range of one byte these are TAB, LF, VT, FF, CR,
    SP and NBSP. *)
Definition isWhiteSpace (c : ascii) : bool :=
  let n := nat_of_ascii c in
  ((n =? 9) || (n =? 10) || (n =? 11) || (n =? 12) || (n =? 13)
   || (n =? 32) || (n =? 160))%nat.

Fixpoint trimStart (s : string) : string :=
  match s with
  | EmptyString => EmptyString
  | String c s' => if isWhiteSpace c then trimStart s' else s
  end.

Definition reverse (s : string) : string :=
  string_of_list_ascii (rev (list_ascii_of_string s)).

Definition trimEnd (s : string) : string := reverse (trimStart (reverse s)).

Definition trim (s : string) : string := trimEnd (trimStart s).

(** [s.startsWith(p)] *)
Definition startsWith (s p : string) : bool := String.prefix p s.

(** Truthiness of a string: every string but the empty one. *)
Definition truthy_string (s : string) : bool :=
  match s with EmptyString => false | _ => true end.

(** Truthiness of [string | undefined] and [string | null]. *)
Definition truthy_opt_string (o : option string) : bool :=
  match o with Some s => truthy_string s | None => false end.

(** What [JSON.parse] can produce.  A number is written [JNum n] for the
    integer numeral [n]; the Number it denotes is the nearest double. *)
Inductive JSON : Type :=
| JNull
| JBool (b : bool)
| JNum (n : Z)
| JStr (s : string)
| JArr (elements : list JSON)
| JObj (properties : list (string * JSON)).

Definition truthy (v : JSON) : bool :=
  match v with
  | JNull => false
  | JBool b => b
  | JNum n => negb (n =? 0)%Z
  | JStr s => truthy_string s
  | JArr _ | JObj _ => true
  end.

Definition join (sep : string) (l : list string) : string :=
  match l with
  | [] => ""
  | x :: xs => fold_left (fun acc y => acc ++ sep ++ y) xs x
  end.

Definition decimal (n : Z) : string := NilZero.string_of_int (Z.to_int n).

(** The Number value of a non-negative integer: itself below 2^53,
    otherwise the nearest multiple of the unit in the last place of a
    53-bit significand, a tie going to the even significand; [None] is
    [Infinity]. *)
Definition Number_value (n : Z) : option Z :=
  (if n <? 2 ^ 53 then Some n
   else
     let ulp := 2 ^ (Z.log2 n - 52) in
     let q := n / ulp in
     let r := n mod ulp in
     let q' := if (ulp <? 2 * r) || ((ulp =? 2 * r) && Z.odd q)
               then q + 1 else q in
     if 2 ^ 1024 <=? q' * ulp then None else Some (q' * ulp))%Z.

(** The number of decimal digits of a positive integer. *)
Definition digits (n : Z) : Z := Z.of_nat (String.length (decimal n)).

Definition reads_as (v c : Z) : bool :=
  match Number_value c with
  | Some v' => (v' =? v)%Z
  | None => false
  end.

(** The decimal of [k] significant digits that is read back as [v]: the
    nearer to [v] if both neighbours are, the even one on a tie. *)
Definition shortest_at (v k : Z) : option Z :=
  (let p := digits v - k in
   if p <=? 0 then Some v
   else
     let lo := v / 10 ^ p * 10 ^ p in
     let hi := lo + 10 ^ p in
     match reads_as v lo, reads_as v hi with
     | true, true =>
         if v - lo <? hi - v then Some lo
         else if hi - v <? v - lo then Some hi
         else if Z.even (lo / 10 ^ p) then Some lo else Some hi
     | true, false => Some lo
     | false, true => Some hi
     | false, false => None
     end)%Z.

(** The decimal with the fewest significant digits that is read back as
    [v]; seventeen digits always suffice. *)
Fixpoint shortest (v k : Z) (fuel : nat) : Z :=
  match fuel with
  | O => v
  | S fuel' =>
      match shortest_at v k with
      | Some c => c
      | None => shortest v (k + 1)%Z fuel'
      end
  end.

Fixpoint strip_zeros (rev_digits : list ascii) : list ascii :=
  match rev_digits with
  | "0"%char :: l => strip_zeros l
  | _ => rev_digits
  end.

(** The digits of a positive integer without its trailing zeros. *)
Definition significant (c : Z) : string :=
  string_of_list_ascii
    (rev (strip_zeros (rev (list_ascii_of_string (decimal c))))).

(** [Number::toString] of a positive integral Number value: the digits,
    in exponential notation from 10^21 on. *)
Definition positive_toString (v : Z) : string :=
  let c := shortest v 1 17 in
  if (digits c <=? 21)%Z then decimal c
  else
    match significant c with
    | String d EmptyString =>
        String d "" ++ "e+" ++ decimal (digits c - 1)
    | String d rest =>
        String d "." ++ rest ++ "e+" ++ decimal (digits c - 1)
    | EmptyString => ""
    end.

(** [String(x)] for the Number [x] that [JSON.parse] makes of the integer
    numeral [n]. *)
Definition Number_toString (n : Z) : string :=
  if (n =? 0)%Z then "0"
  else
    (if (n <? 0)%Z then "-" else "")
    ++ match Number_value (Z.abs n) with
       | Some v => positive_toString v
       | None => "Infinity"
       end.

(** [String(v)], the conversion [new Error(v)] applies to its argument;
    [None] when it throws a [TypeError].  An array joins the strings of
    its elements, [null] giving the empty one.  A parsed object has no
    callable property of its own: with an own [toString] the conversion
    finds no method that returns a primitive and throws, without one it
    reaches [Object.prototype.toString]. *)
Fixpoint ToString (v : JSON) : option string :=
  match v with
  | JNull => Some "null"
  | JBool true => Some "true"
  | JBool false => Some "false"
  | JNum n => Some (Number_toString n)
  | JStr s => Some s
  | JArr l =>
      option_map (join ",")
        ((fix elements (l : list JSON) : option (list string) :=
            match l with
            | [] => Some []
            | x :: l' =>
                match match x with JNull => Some "" | _ => ToString x end with
                | Some s =>
                    match elements l' with
                    | Some ss => Some (s :: ss)
                    | None => None
                    end
                | None => None
                end
            end) l)
  | JObj l =>
      if existsb (fun p => String.eqb (fst p) "toString") l then None
      else Some "[object Object]"
  end.

(** What a [throw] carries, as far as [catch] looks at it:
    [error instanceof Error ? error.message : ...]. *)
Inductive Thrown : Type :=
| ErrorObject (message : string)
| NonError.

(** The value of [new Error(v)] as [catch] gets it when it is thrown: the
    error whose message is [String(v)], or the [TypeError] that the
    conversion threw. *)
Definition new_Error (v : JSON) : Thrown :=
  ErrorObject
    match ToString v with
    | Some s => s
    | None => "Cannot convert object to primitive value"
    end.

(** The own property [key] of a parsed object. *)
Fixpoint lookup (key : string) (l : list (string * JSON)) : option JSON :=
  match l with
  | [] => None
  | (k, v) :: l' => if String.eqb k key then Some v else lookup key l'
  end.

(** The value of [v.key] for a parsed value [v]: a [TypeError] on [null],
    [undefined] ([None]) on the other primitives, on arrays and on objects
    without the property. *)
Definition get_property (v : JSON) (key : string) : Thrown + option JSON :=
  match v with
  | JNull =>
      inl (ErrorObject
             ("Cannot read properties of null (reading '" ++ key ++ "')"))
  | JObj l => inr (lookup key l)
  | _ => inr None
  end.

(** ** Files and multipart bodies *)

Record File : Type := {
  name : string;
  type : string;
  size : N;
  arrayBuffer : list Byte.byte;
}.

Inductive FormDataEntryValue : Type :=
| EntryString (s : string)
| EntryFile (f : File).

Definition FormData : Type := list (string * FormDataEntryValue).

Definition append (fd : FormData) (key : string) (v : FormDataEntryValue)
  : FormData := (fd ++ [(key, v)])%list.

(** [formData.get(key)]: the first entry of that name, or [null]. *)
Fixpoint get (fd : FormData) (key : string) : option FormDataEntryValue :=
  match fd with
  | [] => None
  | (k, v) :: fd' => if String.eqb k key then Some v else get fd' key
  end.

(** ** The component *)

Module GeneratedImage.
Record t : Type := {
  imageUrl : string;
  prompt : string;
  timestamp : Z;
}.
End GeneratedImage.
Abbreviation GeneratedImage := GeneratedImage.t.

(** Identifiers of toasts are [string | number]. *)
Inductive ToastId : Type :=
| IdNumber (n : Z)
| IdString (s : string).

Definition truthy_id (o : option ToastId) : bool :=
  match o with
  | None => false
  | Some (IdNumber n) => negb (n =? 0)%Z
  | Some (IdString s) => truthy_string s
  end.

(** The [useState] cells of [ImageGenerator].  The fixed-delay component
    has no [toastId] cell; its handlers never read or write the field. *)
Record State : Type := {
  prompt : string;
  isGenerating : bool;
  generatedImage : option GeneratedImage;
  generationHistory : list GeneratedImage;
  uploadedImage : option File;
  uploadedImagePreview : option string;
  toastId : option ToastId;
}.

Definition initial_state : State := {|
  prompt := "";
  isGenerating := false;
  generatedImage := None;
  generationHistory := [];
  uploadedImage := None;
  uploadedImagePreview := None;
  toastId := None;
|}.

(** The payload of [sendTransaction]. *)
Inductive Calldata : Type :=
| transfer (recipient : string) (amount : Z).

Record TransactionRequest : Type := {
  to : string;
  data : option Calldata;
  value : Z;
}.

(** The effects a handler has on its collaborators, in program order. *)
Inductive Event : Type :=
| toast_error (message : string)
| toast_success (message : string)
| toast (message description : string)
| toast_dismiss (id : option ToastId)
| sendTransaction (tx : TransactionRequest)
| resetTransaction
| setTimeout (ms : N)
| fetch (url method : string) (body : FormData)
| console_error (error : Thrown)
| readAsDataURL (file : File).

Record Response : Type := {
  ok : bool;
  json : Thrown + JSON;
}.

(** What the collaborators answer during one call of a handler. *)
Record Env : Type := {
  toast_id : ToastId;
  fetch_result : string -> FormData -> Thrown + Response;
  new_Date : Z;
}.

Record World : Type := {
  state : State;
  events : list Event;   (* newest first *)
}.

(** The effects in program order. *)
Definition trace (w : World) : list Event := rev (events w).

Definition start (st : State) : World := {| state := st; events := [] |}.

(** ** A monad for handlers: state, effects and [throw] *)

Inductive Completion (A : Type) : Type :=
| Normal (a : A)
| Throw (error : Thrown).
Arguments Normal {A} a.
Arguments Throw {A} error.

Section Eff.
Context {W : Type}.

Definition Eff (A : Type) : Type := W -> Completion A * W.

Definition ret {A} (a : A) : Eff A := fun w => (Normal a, w).

Definition bind {A B} (m : Eff A) (k : A -> Eff B) : Eff B :=
  fun w =>
    match m w with
    | (Normal a, w') => k a w'
    | (Throw e, w') => (Throw e, w')
    end.

Definition throw {A} (e : Thrown) : Eff A := fun w => (Throw e, w).

(** [await p] for a promise that settles with [r]; also a call that
    returns or throws [r]. *)
Definition await {A} (r : Thrown + A) : Eff A :=
  match r with inl e => throw e | inr a => ret a end.

(** [try { body } catch (error) { handler }] *)
Definition try_catch {A} (body : Eff A) (handler : Thrown -> Eff A)
  : Eff A :=
  fun w =>
    match body w with
    | (Normal a, w1) => (Normal a, w1)
    | (Throw e, w1) => handler e w1
    end.

(** [try { body } catch (error) { handler } finally { final }] *)
Definition try_catch_finally (body : Eff unit)
    (handler : Thrown -> Eff unit) (final : Eff unit) : Eff unit :=
  fun w =>
    match try_catch body handler w with
    | (c, w2) =>
        match final w2 with
        | (Normal _, w3) => (c, w3)
        | (Throw e', w3) => (Throw e', w3)
        end
    end.
End Eff.
Arguments Eff : clear implicits.

Declare Scope handler_scope.
Delimit Scope handler_scope with handler.
Notation "x <- m ;; k" := (bind m (fun x => k))
  (at level 61, m at next level, right associativity) : handler_scope.
Notation "m ;; k" := (bind m (fun _ => k))
  (at level 61, right associativity) : handler_scope.
Open Scope handler_scope.

Abbreviation M := (Eff World).

Definition emit (e : Event) : M unit :=
  fun w => (Normal tt, {| state := state w; events := e :: events w |}).

Definition modify (f : State -> State) : M unit :=
  fun w => (Normal tt, {| state := f (state w); events := events w |}).

(** The setters: each replaces one cell of the live state. *)
Definition with_prompt (p : string) (s : State) : State :=
  {| prompt := p; isGenerating := isGenerating s;
     generatedImage := generatedImage s;
     generationHistory := generationHistory s;
     uploadedImage := uploadedImage s;
     uploadedImagePreview := uploadedImagePreview s;
     toastId := toastId s |}.

Definition with_isGenerating (b : bool) (s : State) : State :=
  {| prompt := prompt s; isGenerating := b;
     generatedImage := generatedImage s;
     generationHistory := generationHistory s;
     uploadedImage := uploadedImage s;
     uploadedImagePreview := uploadedImagePreview s;
     toastId := toastId s |}.

Definition with_generatedImage (g : option GeneratedImage) (s : State)
  : State :=
  {| prompt := prompt s; isGenerating := isGenerating s;
     generatedImage := g; generationHistory := generationHistory s;
     uploadedImage := uploadedImage s;
     uploadedImagePreview := uploadedImagePreview s;
     toastId := toastId s |}.

Definition with_generationHistory (h : list GeneratedImage) (s : State)
  : State :=
  {| prompt := prompt s; isGenerating := isGenerating s;
     generatedImage := generatedImage s; generationHistory := h;
     uploadedImage := uploadedImage s;
     uploadedImagePreview := uploadedImagePreview s;
     toastId := toastId s |}.

Definition with_uploadedImage (f : option File) (s : State) : State :=
  {| prompt := prompt s; isGenerating := isGenerating s;
     generatedImage := generatedImage s;
     generationHistory := generationHistory s; uploadedImage := f;
     uploadedImagePreview := uploadedImagePreview s;
     toastId := toastId s |}.

Definition with_uploadedImagePreview (p : option string) (s : State)
  : State :=
  {| prompt := prompt s; isGenerating := isGenerating s;
     generatedImage := generatedImage s;
     generationHistory := generationHistory s;
     uploadedImage := uploadedImage s; uploadedImagePreview := p;
     toastId := toastId s |}.

Definition with_toastId (i : option ToastId) (s : State) : State :=
  {| prompt := prompt s; isGenerating := isGenerating s;
     generatedImage := generatedImage s;
     generationHistory := generationHistory s;
     uploadedImage := uploadedImage s;
     uploadedImagePreview := uploadedImagePreview s; toastId := i |}.

Definition setPrompt (p : string) : M unit := modify (with_prompt p).

Definition setIsGenerating (b : bool) : M unit :=
  modify (with_isGenerating b).

Definition setGeneratedImage (g : option GeneratedImage) : M unit :=
  modify (with_generatedImage g).

(** [setGenerationHistory(prev => f(prev))] *)
Definition setGenerationHistory
    (f : list GeneratedImage -> list GeneratedImage) : M unit :=
  modify (fun s => with_generationHistory (f (generationHistory s)) s).

Definition setUploadedImage (f : option File) : M unit :=
  modify (with_uploadedImage f).

Definition setUploadedImagePreview (p : option string) : M unit :=
  modify (with_uploadedImagePreview p).

Definition setToastId (i : option ToastId) : M unit :=
  modify (with_toastId i).

(** [prev.slice(0, n)] *)
Definition slice0 {A} (n : nat) (l : list A) : list A := firstn n l.

(** [handleFileUpload], the same text in both components.  [file] is
    [event.target.files?.[0]]. *)
Definition handleFileUpload (file : option File) : M unit :=
  match file with
  | None => ret tt
  | Some file =>
      if negb (startsWith (type file) "image/") then
        emit (toast_error "Please upload an image file")
      else if (10 * 1024 * 1024 <? size file)%N then
        emit (toast_error "File size must be less than 10MB")
      else
        setUploadedImage (Some file) ;;
        emit (readAsDataURL file) ;;
        emit (toast_success "Image uploaded successfully!")
  end.

(** [reader.onload], run later with the data URL the reader produced. *)
Definition reader_onload (result : string) : M unit :=
  setUploadedImagePreview (Some result).

Definition clearUploadedImage : M unit :=
  setUploadedImage None ;;
  setUploadedImagePreview None.

Definition message_or (fallback : string) (error : Thrown) : string :=
  match error with
  | ErrorObject m => m
  | NonError => fallback
  end.

(** A value together with the equation that names it, for the tests of
    loops defined by well-founded recursion. *)
Definition inspect {A} (a : A) : {b : A | a = b} := exist _ a eq_refl.

(** ** The component that polls for the confirmation *)

Module Polling.

Definition maxAttempts : nat := 30.

(** [parseEther("0.00005")], in wei. *)
Definition payment_value : Z := 50000000000000.

(** The loop
    [while (!isConfirmed && attempts < maxAttempts)
       { await sleep(1000); attempts++; if (isConfirmed) break; }].
    [isConfirmed k] is the value the expression [isConfirmed] has once
    [k] of the sleeps have completed; the variable is bound by the render
    that created the handler, so it is the same at every [k] in a run of
    the component, and nothing below depends on how it varies.
    The result is the final value of [attempts]. *)
Equations? wait_loop (isConfirmed : nat -> bool) (attempts : nat)
    (w : World) : Completion nat * World
    by wf (maxAttempts - attempts) lt :=
  wait_loop isConfirmed attempts w
    with inspect (negb (isConfirmed attempts)
                  && (attempts <? maxAttempts)%nat) := {
    | exist _ true _ =>
        let w1 := snd (emit (setTimeout 1000) w) in
        let attempts1 := S attempts in
        if isConfirmed attempts1 then (Normal attempts1, w1)
        else wait_loop isConfirmed attempts1 w1
    | exist _ false _ => (Normal attempts, w)
    }.
Proof.
  apply andb_prop in e. destruct e as [_ e].
  apply Nat.ltb_lt in e.
  change (maxAttempts - S attempts < maxAttempts - attempts). lia.
Qed.

Definition handleGenerate (env : Env) (address : option string)
    (isConfirmed : nat -> bool) (r : State) : M unit :=
  if negb (truthy_string (trim (prompt r))) then
    emit (toast_error "Please enter a prompt")
  else if negb (truthy_opt_string address) then
    emit (toast_error "Please connect your wallet first")
  else
    setIsGenerating true ;;
    try_catch_finally
      (emit (sendTransaction
               {| to := "0xaf59B12ea11914A0373ffbb13FF8b03F8537C599";
                  data := None;
                  value := payment_value |}) ;;
       emit (toast "Processing payment..."
                   "Paying 0.00005 ETH for image generation") ;;
       let toastId_ := toast_id env in
       setToastId (Some toastId_) ;;
       attempts <- wait_loop isConfirmed 0 ;;
       (if negb (isConfirmed attempts) then
          throw (ErrorObject
            "Payment confirmation timeout - transaction may have failed")
        else ret tt) ;;
       let formData := append [] "prompt" (EntryString (prompt r)) in
       let formData :=
         match uploadedImage r with
         | Some f => append formData "image" (EntryFile f)
         | None => formData
         end in
       emit (fetch "/api/generate" "POST" formData) ;;
       response <- await (fetch_result env "/api/generate" formData) ;;
       apiData <- await (json response) ;;
       (if negb (ok response) then
          error <- await (get_property apiData "error") ;;
          throw (new_Error
                   (match error with
                    | Some v => if truthy v then v
                                else JStr "Failed to generate image"
                    | None => JStr "Failed to generate image"
                    end))
        else ret tt) ;;
       imageUrl <- await (get_property apiData "imageUrl") ;;
       match imageUrl with
       | Some (JStr (String c u)) =>
           let newImage := {|
             GeneratedImage.imageUrl := String c u;
             GeneratedImage.prompt :=
               match uploadedImage r with
               | Some _ => "Reimagined: " ++ prompt r
               | None => prompt r
               end;
             GeneratedImage.timestamp := new_Date env |} in
           setGeneratedImage (Some newImage) ;;
           setGenerationHistory (fun prev => newImage :: slice0 4 prev) ;;
           emit (toast_success "Image generated successfully!")
       | _ => throw (ErrorObject "Invalid image URL received from API")
       end)
      (fun error =>
         emit (console_error error) ;;
         emit (toast_error (message_or "Failed to generate image" error)))
      (setIsGenerating false ;;
       emit resetTransaction ;;
       if truthy_id (toastId r) then
         emit (toast_dismiss (toastId r)) ;;
         setToastId None
       else ret tt).

(** The effect of the component,
    [useEffect(() => { if (isConfirmed && toastId !== null) ... })], run
    after a render with these values.  The dismissal is deferred with
    [setTimeout(..., 0)] and so comes last. *)
Definition confirmation_effect (isConfirmed : bool) (r : State) : M unit :=
  match toastId r with
  | Some id =>
      if isConfirmed then
        emit (toast_success "Payment confirmed!") ;;
        setToastId None ;;
        emit resetTransaction ;;
        emit (toast_dismiss (Some id))
      else ret tt
  | None => ret tt
  end.

End Polling.

(** ** The component that waits one second *)

Module FixedDelay.

(** The module [@/lib/usdc] is not among the sources.  Its constant
    [USDC], of which the handler reads [address] and [decimals], is a
    parameter of the handler; the calldata that [encodeFunctionData] makes
    with its [erc20Abi] for [transfer(recipient, amount)] is kept
    symbolic. *)
Record Token : Type := {
  address : string;
  decimals : N;
}.

(** [parseUnits("0.1", d)]: a tenth of [10^d], rounded to an integer. *)
Definition parseUnits_tenth (d : N) : Z := (10 ^ Z.of_N d / 10)%Z.

Definition handleGenerate (USDC : Token) (env : Env)
    (address : option string) (r : State) : M unit :=
  if negb (truthy_string (trim (prompt r))) then
    emit (toast_error "Please enter a prompt")
  else if negb (truthy_opt_string address) then
    emit (toast_error "Please connect your wallet first")
  else
    setIsGenerating true ;;
    try_catch_finally
      (let paymentData :=
         transfer "0xaf59B12ea11914A0373ffbb13FF8b03F8537C599"
                  (parseUnits_tenth (decimals USDC)) in
       emit (sendTransaction
               {| to := FixedDelay.address USDC;
                  data := Some paymentData;
                  value := 0 |}) ;;
       emit (setTimeout 1000) ;;
       let formData := append [] "prompt" (EntryString (prompt r)) in
       let formData :=
         match uploadedImage r with
         | Some f => append formData "image" (EntryFile f)
         | None => formData
         end in
       emit (fetch "/api/generate" "POST" formData) ;;
       response <- await (fetch_result env "/api/generate" formData) ;;
       data <- await (json response) ;;
       (if negb (ok response) then
          error <- await (get_property data "error") ;;
          throw (new_Error
                   (match error with
                    | Some v => if truthy v then v
                                else JStr "Failed to generate image"
                    | None => JStr "Failed to generate image"
                    end))
        else ret tt) ;;
       imageUrl <- await (get_property data "imageUrl") ;;
       match imageUrl with
       | Some (JStr (String c u)) =>
           let newImage := {|
             GeneratedImage.imageUrl := String c u;
             GeneratedImage.prompt :=
               match uploadedImage r with
               | Some _ => "Reimagined: " ++ prompt r
               | None => prompt r
               end;
             GeneratedImage.timestamp := new_Date env |} in
           setGeneratedImage (Some newImage) ;;
           setGenerationHistory (fun prev => newImage :: slice0 4 prev) ;;
           emit (toast_success "Image generated successfully!")
       | _ => throw (ErrorObject "Invalid image URL received from API")
       end)
      (fun error =>
         emit (console_error error) ;;
         emit (toast_error (message_or "Failed to generate image" error)))
      (setIsGenerating false ;;
       emit resetTransaction).

End FixedDelay.

(** ** The generation endpoint, [app/api/generate/route.ts] *)

Module Route.

Definition base64_alphabet : string :=
  "ABCDEFGHIJKLMNOPQRSTUVWXYZabcdefghijklmnopqrstuvwxyz0123456789+/".

Definition base64_digit (n : N) : string :=
  match String.get (N.to_nat n) base64_alphabet with
  | Some c => String c ""
  | None => "="
  end.

(** [Buffer.from(bytes).toString('base64')] *)
Fixpoint base64 (l : list N) : string :=
  match l with
  | [] => ""
  | [a] =>
      base64_digit (N.shiftr a 2)
      ++ base64_digit (N.shiftl (N.land a 3) 4) ++ "=="
  | [a; b] =>
      base64_digit (N.shiftr a 2)
      ++ base64_digit (N.lor (N.shiftl (N.land a 3) 4) (N.shiftr b 4))
      ++ base64_digit (N.shiftl (N.land b 15) 2) ++ "="
  | a :: b :: c :: rest =>
      base64_digit (N.shiftr a 2)
      ++ base64_digit (N.lor (N.shiftl (N.land a 3) 4) (N.shiftr b 4))
      ++ base64_digit (N.lor (N.shiftl (N.land b 15) 2) (N.shiftr c 6))
      ++ base64_digit (N.land c 63)
      ++ base64 rest
  end.

(** The [input] object given to [replicate.run]. *)
Record Input : Type := {
  prompt : FormDataEntryValue;
  image_input : list string;
  aspect_ratio : string;
  output_format : string;
}.

(** What [replicate.run] resolves to, seen through the one use the
    handler makes of it: the call [output.url()], which throws or
    returns the address (a [URL], a string once in the JSON body). *)
Record Output : Type := {
  url : Thrown + string;
}.

Inductive Event : Type :=
| console_log (message : string)
| console_error (message : string) (error : option Thrown)
| replicate_run (auth model : string) (input : Input).

Record Env : Type := {
  REPLICATE_API_TOKEN : option string;
  run : string -> Input -> Thrown + Output;
}.

Record Request : Type := {
  formData : Thrown + FormData;
}.

(** [NextResponse.json(body, { status })]; the status is 200 when none
    is given. *)
Record NextResponse : Type := {
  body : JSON;
  status : N;
}.

Definition log (e : Event) : Eff (list Event) unit :=
  fun w => (Normal tt, e :: w).

(** Truthiness of [FormDataEntryValue | null]. *)
Definition truthy_entry (o : option FormDataEntryValue) : bool :=
  match o with
  | None => false
  | Some (EntryString s) => truthy_string s
  | Some (EntryFile _) => true
  end.

(** The entry inside a template literal. *)
Definition entry_ToString (v : FormDataEntryValue) : string :=
  match v with
  | EntryString s => s
  | EntryFile _ => "[object File]"
  end.

(** The entry as a member of a JSON body: a [File] has no enumerable
    own property. *)
Definition entry_to_JSON (v : FormDataEntryValue) : JSON :=
  match v with
  | EntryString s => JStr s
  | EntryFile _ => JObj []
  end.

Definition POST (env : Env) (request : Request)
  : Eff (list Event) NextResponse :=
  try_catch
    (formData <- await (formData request) ;;
     let prompt := get formData "prompt" in
     let uploadedImage := get formData "image" in
     match prompt with
     | None | Some (EntryString EmptyString) =>
         ret {| body := JObj [("error", JStr "Prompt is required")];
                status := 400 |}
     | Some prompt' =>
         match REPLICATE_API_TOKEN env with
         | Some (String c t) =>
             let replicateApiToken := String c t in
             output <-
               (match uploadedImage with
                | Some (EntryFile f) =>
                    log (console_log
                      "Processing image-to-image generation with Nano Banana...") ;;
                    let base64Image :=
                      base64 (map Byte.to_N (arrayBuffer f)) in
                    let mimeType :=
                      if truthy_string (type f) then type f
                      else "image/png" in
                    let input := {|
                      prompt := prompt';
                      image_input :=
                        ["data:" ++ mimeType ++ ";base64," ++ base64Image];
                      aspect_ratio := "1:1";
                      output_format := "png" |} in
                    log (replicate_run replicateApiToken
                           "google/nano-banana" input) ;;
                    await (run env "google/nano-banana" input)
                | Some (EntryString (String _ _)) =>
                    log (console_log
                      "Processing image-to-image generation with Nano Banana...") ;;
                    throw (ErrorObject
                             "uploadedImage.arrayBuffer is not a function")
                | Some (EntryString EmptyString) | None =>
                    log (console_log
                      "Processing text-to-image generation with Nano Banana...") ;;
                    let input := {|
                      prompt := prompt';
                      image_input := [];
                      aspect_ratio := "1:1";
                      output_format := "png" |} in
                    log (replicate_run replicateApiToken
                           "google/nano-banana" input) ;;
                    await (run env "google/nano-banana" input)
                end) ;;
             imageUrl <- await (url output) ;;
             ret {| body :=
                      JObj [("success", JBool true);
                            ("imageUrl", JStr imageUrl);
                            ("prompt",
                             if truthy_entry uploadedImage
                             then JStr ("Reimagined: "
                                        ++ entry_ToString prompt')
                             else entry_to_JSON prompt')];
                    status := 200 |}
         | _ =>
             log (console_error "Missing Replicate API token" None) ;;
             ret {| body :=
                      JObj [("error",
                             JStr "Server configuration error: Replicate API token not configured")];
                    status := 500 |}
         end
     end)
    (fun error =>
       log (console_error "Image generation error:" (Some error)) ;;
       let errorMessage := message_or "Unknown error occurred" error in
       ret {| body := JObj [("error", JStr "Failed to generate image");
                            ("details", JStr errorMessage)];
              status := 500 |}).

End Route.

(** ** What the components render

    The conditions of the JSX, on the values of one render. *)

Module View.

Definition is_set {A} (o : option A) : bool :=
  match o with Some _ => true | None => false end.

(** [generationHistory.slice(1)], the entries offered for selection. *)
Definition recent (r : State) : list GeneratedImage :=
  skipn 1 (generationHistory r).

(** The polling component shows the recent generations under
    [generationHistory.length > 1 && !generatedImage && !isGenerating]. *)
Definition polling_shows_recent (r : State) : bool :=
  (1 <? length (generationHistory r))%nat
  && negb (is_set (generatedImage r)) && negb (isGenerating r).

End View.

(** ** [downloadImage], the same text in both components *)

Module Download.

Definition Blob : Type := list Byte.byte.

Record Response : Type := {
  ok : bool;
  blob : Thrown + Blob;
}.

(** The anchor element once [href] and [download] are set. *)
Record Link : Type := {
  href : string;
  download : string;
}.

Inductive Event : Type :=
| fetch (url : string)
| createObjectURL (b : Blob)
| appendChild (link : Link)
| click (link : Link)
| removeChild (link : Link)
| revokeObjectURL (url : string)
| toast_success (message : string)
| toast_error (message : string).

Record Env : Type := {
  fetch_result : string -> Thrown + Response;
  object_url : Blob -> string;
}.

Definition emit (e : Event) : Eff (list Event) unit :=
  fun w => (Normal tt, e :: w).

Definition downloadImage (env : Env) (imageUrl filename : string)
  : Eff (list Event) unit :=
  try_catch
    (emit (fetch imageUrl) ;;
     response <- await (fetch_result env imageUrl) ;;
     blob <- await (blob response) ;;
     emit (createObjectURL blob) ;;
     let url := object_url env blob in
     let link := {| href := url; download := filename |} in
     emit (appendChild link) ;;
     emit (click link) ;;
     emit (removeChild link) ;;
     emit (revokeObjectURL url) ;;
     emit (toast_success "Image downloaded!"))
    (fun error => emit (toast_error "Failed to download image")).

End Download.

(** ** The page, [app/page.tsx]: sending ETH *)

Module Page.

(** The [useState] cells of [App]. *)
Record State : Type := {
  isDialogOpen : bool;
  toAddress : string;
  amount : string;
  toastId : option ToastId;
}.

Definition initial_state : State :=
  {| isDialogOpen := false; toAddress := ""; amount := ""; toastId := None |}.

Inductive Event : Type :=
| toast_error (message description : string)
| toast_success (message description : string)
| toast (message description : string)
| toast_dismiss (id : option ToastId)
| sendTransaction (tx : TransactionRequest)
| resetTransaction.

(** [isAddress] and [parseEther] are viem's; the second throws on a string
    that is not a decimal number. *)
Record Env : Type := {
  isAddress : string -> bool;
  parseEther : string -> Thrown + Z;
  toast_id : ToastId;
}.

Record World : Type := {
  state : State;
  events : list Event;   (* newest first *)
}.

Definition trace (w : World) : list Event := rev (events w).

Definition start (st : State) : World := {| state := st; events := [] |}.

Definition emit (e : Event) : Eff World unit :=
  fun w => (Normal tt, {| state := state w; events := e :: events w |}).

Definition modify (f : State -> State) : Eff World unit :=
  fun w => (Normal tt, {| state := f (state w); events := events w |}).

Definition setToastId (i : option ToastId) : Eff World unit :=
  modify (fun s => {| isDialogOpen := isDialogOpen s;
                      toAddress := toAddress s;
                      amount := amount s;
                      toastId := i |}).

Definition setIsDialogOpen (b : bool) : Eff World unit :=
  modify (fun s => {| isDialogOpen := b;
                      toAddress := toAddress s;
                      amount := amount s;
                      toastId := toastId s |}).

Definition setAmount (a : string) : Eff World unit :=
  modify (fun s => {| isDialogOpen := isDialogOpen s;
                      toAddress := toAddress s;
                      amount := a;
                      toastId := toastId s |}).

Definition setToAddress (a : string) : Eff World unit :=
  modify (fun s => {| isDialogOpen := isDialogOpen s;
                      toAddress := a;
                      amount := amount s;
                      toastId := toastId s |}).

(** [handleSend], a closure over [amount] and [toAddress] of the render
    [r].  The argument [parseEther(amount)] is evaluated before
    [sendTransaction] is called. *)
Definition handleSend (env : Env) (r : State) : Eff World unit :=
  if negb (truthy_string (amount r)) || negb (isAddress env (toAddress r)) then
    emit (toast_error "Invalid input"
                      "Please enter a valid address and amount")
  else
    try_catch
      (value <- await (parseEther env (amount r)) ;;
       emit (sendTransaction
               {| to := toAddress r; data := None; value := value |}) ;;
       emit (toast "Sending ETH..."
                   ("Sending " ++ amount r ++ " ETH to " ++ toAddress r)) ;;
       let toastId_ := toast_id env in
       setToastId (Some toastId_) ;;
       setIsDialogOpen false ;;
       setAmount "" ;;
       setToAddress "")
      (fun _error =>
         emit (toast_error "Transaction failed" "Please try again")).

(** The effect of [App], run after a render with these values; the
    dismissal is deferred with [setTimeout(..., 0)] and so comes last. *)
Definition confirmation_effect (isConfirmed : bool) (r : State)
  : Eff World unit :=
  match toastId r with
  | Some id =>
      if isConfirmed then
        emit (toast_success "Transaction successful!"
                ("Sent " ++ amount r ++ " ETH to " ++ toAddress r)) ;;
        setToastId None ;;
        emit resetTransaction ;;
        emit (toast_dismiss (Some id))
      else ret tt
  | None => ret tt
  end.

End Page.

(** * Vocabulary of the properties *)

(** ** Strings *)

Definition whitespace_only (s : string) : bool :=
  forallb isWhiteSpace (list_ascii_of_string s).

(** ** Reading the effects *)

(** The bodies of the requests sent to the generation endpoint, among the
    given effects. *)
Definition generation_calls (l : list Event) : list FormData :=
  flat_map (fun e => match e with
                     | fetch url _ body =>
                         if String.eqb url "/api/generate" then [body] else []
                     | _ => []
                     end) l.

(** The payment transactions submitted. *)
Definition payments (l : list Event) : list TransactionRequest :=
  flat_map (fun e => match e with sendTransaction tx => [tx] | _ => [] end) l.

(** All requests put on the network. *)
Definition network_calls (l : list Event) : list Event :=
  filter (fun e => match e with fetch _ _ _ => true | _ => false end) l.

(** The world after further effects [l], newest first. *)
Definition add_events (l : list Event) (w : World) : World :=
  {| state := state w; events := (l ++ events w)%list |}.

(** The world after [n] further one-second sleeps. *)
Definition add_sleeps (n : nat) (w : World) : World :=
  add_events (repeat (setTimeout 1000) n) w.

(** ** The steps both components share

    From [const formData = new FormData()] to the success toast the two
    [handleGenerate] have the same statements (the parsed response is
    called [apiData] in one and [data] in the other); they are named
    [generation_steps] here, and each handler is shown below to end with
    them. *)

(** The multipart body built from the render's [prompt] and
    [uploadedImage]. *)
Definition request_body (r : State) : FormData :=
  match uploadedImage r with
  | Some f => [("prompt", EntryString (prompt r)); ("image", EntryFile f)]
  | None => [("prompt", EntryString (prompt r))]
  end.

(** The prompt kept with the result. *)
Definition stored_prompt (r : State) : string :=
  match uploadedImage r with
  | Some _ => "Reimagined: " ++ prompt r
  | None => prompt r
  end.

(** [setGeneratedImage(newImage)] and
    [setGenerationHistory(prev => [newImage, ...prev.slice(0, 4)])]. *)
Definition store (img : GeneratedImage) (s : State) : State :=
  with_generationHistory (img :: slice0 4 (generationHistory s))
    (with_generatedImage (Some img) s).

Definition generation_steps (env : Env) (r : State) : M unit :=
  let formData := append [] "prompt" (EntryString (prompt r)) in
  let formData :=
    match uploadedImage r with
    | Some f => append formData "image" (EntryFile f)
    | None => formData
    end in
  emit (fetch "/api/generate" "POST" formData) ;;
  response <- await (fetch_result env "/api/generate" formData) ;;
  apiData <- await (json response) ;;
  (if negb (ok response) then
     error <- await (get_property apiData "error") ;;
     throw (new_Error
              (match error with
               | Some v => if truthy v then v
                           else JStr "Failed to generate image"
               | None => JStr "Failed to generate image"
               end))
   else ret tt) ;;
  imageUrl <- await (get_property apiData "imageUrl") ;;
  match imageUrl with
  | Some (JStr (String c u)) =>
      let newImage := {|
        GeneratedImage.imageUrl := String c u;
        GeneratedImage.prompt :=
          match uploadedImage r with
          | Some _ => "Reimagined: " ++ prompt r
          | None => prompt r
          end;
        GeneratedImage.timestamp := new_Date env |} in
      setGeneratedImage (Some newImage) ;;
      setGenerationHistory (fun prev => newImage :: slice0 4 prev) ;;
      emit (toast_success "Image generated successfully!")
  | _ => throw (ErrorObject "Invalid image URL received from API")
  end.

(** How the shared steps end: with a [throw], or with an image stored. *)
Inductive Outcome : Type :=
| Failed (error : Thrown)
| Generated (image : GeneratedImage).

Definition completion (o : Outcome) : Completion unit :=
  match o with
  | Failed e => Throw e
  | Generated _ => Normal tt
  end.

(** The world the shared steps leave. *)
Definition after_generation (r : State) (o : Outcome) (w : World) : World :=
  match o with
  | Failed _ =>
      add_events [fetch "/api/generate" "POST" (request_body r)] w
  | Generated img =>
      {| state := store img (state w);
         events := toast_success "Image generated successfully!"
                   :: fetch "/api/generate" "POST" (request_body r)
                   :: events w |}
  end.

(** The response was [ok] and its [imageUrl] a non-empty string, from which
    [img] was built. *)
Definition accepted (env : Env) (r : State) (img : GeneratedImage) : Prop :=
  exists response apiData,
    fetch_result env "/api/generate" (request_body r) = inr response
    /\ ok response = true
    /\ json response = inr apiData
    /\ get_property apiData "imageUrl"
       = inr (Some (JStr (GeneratedImage.imageUrl img)))
    /\ GeneratedImage.imageUrl img <> ""
    /\ GeneratedImage.prompt img = stored_prompt r
    /\ GeneratedImage.timestamp img = new_Date env.

(** What the [catch] block does with what was thrown. *)
Definition caught (e : Thrown) (w : World) : World :=
  add_events [toast_error (message_or "Failed to generate image" e);
              console_error e] w.

(** The [catch] block runs only after a [throw]. *)
Definition settled (o : Outcome) (w : World) : World :=
  match o with
  | Failed e => caught e w
  | Generated _ => w
  end.

(** ** The two handlers *)

Definition timeout_error : Thrown :=
  ErrorObject "Payment confirmation timeout - transaction may have failed".

(** The world once the payment is submitted and its toast shown. *)
Definition polling_paid (env : Env) (w : World) : World :=
  {| state := with_toastId (Some (toast_id env))
                (with_isGenerating true (state w));
     events := toast "Processing payment..."
                     "Paying 0.00005 ETH for image generation"
               :: sendTransaction
                    {| to := "0xaf59B12ea11914A0373ffbb13FF8b03F8537C599";
                       data := None;
                       value := Polling.payment_value |}
               :: events w |}.

(** The [finally] block: it tests the [toastId] of the render. *)
Definition polling_cleaned (r : State) (w : World) : World :=
  if truthy_id (toastId r) then
    {| state := with_toastId None (with_isGenerating false (state w));
       events := toast_dismiss (toastId r) :: resetTransaction :: events w |}
  else
    {| state := with_isGenerating false (state w);
       events := resetTransaction :: events w |}.

(** Both tests at the head of [handleGenerate] pass. *)
Definition validated (r : State) (address : option string) : Prop :=
  truthy_string (trim (prompt r)) = true
  /\ truthy_opt_string address = true.

(** The world once the transfer is submitted and the second has passed. *)
Definition fixed_paid (USDC : FixedDelay.Token) (w : World) : World :=
  {| state := with_isGenerating true (state w);
     events := setTimeout 1000
               :: sendTransaction
                    {| to := FixedDelay.address USDC;
                       data := Some (transfer
                                 "0xaf59B12ea11914A0373ffbb13FF8b03F8537C599"
                                 (FixedDelay.parseUnits_tenth
                                    (FixedDelay.decimals USDC)));
                       value := 0 |}
               :: events w |}.

(** The [finally] block of the fixed-delay handler. *)
Definition fixed_cleaned (w : World) : World :=
  {| state := with_isGenerating false (state w);
     events := resetTransaction :: events w |}.

(** The result state: the latest image and the history. *)
Definition results (s : State)
  : option GeneratedImage * list GeneratedImage :=
  (generatedImage s, generationHistory s).

(** An error message was shown to the user. *)
Definition error_toast (l : list Event) : Prop :=
  exists msg, In (toast_error msg) l.

Definition success_toast : Event :=
  toast_success "Image generated successfully!".

(** How a run of [handleGenerate] ended, read off its final world [w']
    against the live state [st] it started from. *)
Definition ended_in_error (st : State) (w' : World) : Prop :=
  error_toast (trace w')
  /\ ~ In success_toast (trace w')
  /\ results (state w') = results st.

Definition ended_with (img : GeneratedImage) (st : State) (w' : World)
  : Prop :=
  ~ error_toast (trace w')
  /\ In success_toast (trace w')
  /\ results (state w') = results (store img st).

(** ** The endpoint *)

(** The inputs given to the generation model, among the logged effects. *)
Definition model_calls (l : list Route.Event) : list Route.Input :=
  flat_map (fun e => match e with
                     | Route.replicate_run _ _ input => [input]
                     | _ => []
                     end) l.

(** The body has a member [key] that is a string. *)
Definition has_string (key : string) (b : JSON) : Prop :=
  exists s, get_property b key = inr (Some (JStr s)).

Definition is_2xx (n : N) : Prop := (200 <= n < 300)%N.

(** The request parsed and had no [prompt] field, or an empty one. *)
Definition prompt_missing (request : Route.Request) : Prop :=
  exists fd, Route.formData request = inr fd
             /\ Route.truthy_entry (get fd "prompt") = false.

(** The request parsed, had a prompt, and the server has no API token. *)
Definition token_missing (env : Route.Env) (request : Route.Request) : Prop :=
  exists fd, Route.formData request = inr fd
             /\ Route.truthy_entry (get fd "prompt") = true
             /\ truthy_opt_string (Route.REPLICATE_API_TOKEN env) = false.

(** The contract in which every failure other than a missing prompt
    carries a [details] member. *)
Definition endpoint_contract_with_details (env : Route.Env)
    (request : Route.Request) : Prop :=
  forall resp log,
    Route.POST env request [] = (Normal resp, log) ->
    (is_2xx (Route.status resp) ->
     has_string "imageUrl" (Route.body resp)
     /\ get_property (Route.body resp) "success" = inr (Some (JBool true)))
    /\ (prompt_missing request ->
        Route.status resp = 400%N
        /\ has_string "error" (Route.body resp)
        /\ model_calls log = [])
    /\ (~ is_2xx (Route.status resp) -> ~ prompt_missing request ->
        has_string "error" (Route.body resp)
        /\ get_property (Route.body resp) "details" <> inr None).

(** A server without [REPLICATE_API_TOKEN]. *)
Definition no_token_env : Route.Env :=
  {| Route.REPLICATE_API_TOKEN := None;
     Route.run := fun _ _ =>
       inr {| Route.url := inr "https://example.com/out.png" |} |}.

(** A text-only request. *)
Definition text_request : Route.Request :=
  {| Route.formData := inr [("prompt", EntryString "a red bicycle")] |}.

(** ** Sessions *)

(** What can happen to a mounted component: the events its JSX wires to
    handlers, and the effect.  [Generate] is the handler of the polling
    component, [GenerateAfterDelay] that of the fixed-delay one; each runs
    as the closure of the current render. *)
Inductive Action : Type :=
| Edit (p : string)
| Choose (file : option File)
| Loaded (result : string)
| Clear
| Select (image : GeneratedImage)
| Confirmation (isConfirmed : bool)
| Generate (env : Env) (address : option string) (isConfirmed : nat -> bool)
| GenerateAfterDelay (USDC : FixedDelay.Token) (env : Env)
    (address : option string).

Definition perform (a : Action) (st : State) : World :=
  snd (match a with
       | Edit p => setPrompt p
       | Choose file => handleFileUpload file
       | Loaded result => reader_onload result
       | Clear => clearUploadedImage
       | Select image => setGeneratedImage (Some image)
       | Confirmation isConfirmed =>
           Polling.confirmation_effect isConfirmed st
       | Generate env address isConfirmed =>
           Polling.handleGenerate env address isConfirmed st
       | GenerateAfterDelay USDC env address =>
           FixedDelay.handleGenerate USDC env address st
       end (start st)).

Fixpoint session (acts : list Action) (st : State) : State :=
  match acts with
  | [] => st
  | a :: acts' => session acts' (state (perform a st))
  end.

Definition is_success_toast (e : Event) : bool :=
  match e with
  | toast_success m => String.eqb m "Image generated successfully!"
  | _ => false
  end.

(** The image an action generated, if it announced one. *)
Definition generated_by (a : Action) (st : State) : list GeneratedImage :=
  let w := perform a st in
  if existsb is_success_toast (events w) then
    match generatedImage (state w) with
    | Some img => [img]
    | None => []
    end
  else [].

(** The images generated during a session, oldest first. *)
Fixpoint generated (acts : list Action) (st : State) : list GeneratedImage :=
  match acts with
  | [] => []
  | a :: acts' =>
      (generated_by a st ++ generated acts' (state (perform a st)))%list
  end.

(** ** Concrete inputs *)

Definition wallet : option string :=
  Some "0x1111111111111111111111111111111111111111".

(** The first render after the user typed a prompt. *)
Definition idle_render : State := with_prompt "a red bicycle" initial_state.

(** A network on which [fetch] rejects. *)
Definition unanswered : Env :=
  {| toast_id := IdNumber 1;
     fetch_result := fun _ _ => inl (ErrorObject "Failed to fetch");
     new_Date := 1700000000000 |}.

(** An endpoint that answers with an image. *)
Definition answering : Env :=
  {| toast_id := IdNumber 1;
     fetch_result := fun _ _ =>
       inr {| ok := true;
              json := inr (JObj [("success", JBool true);
                                 ("imageUrl",
                                  JStr "https://replicate.delivery/out.png");
                                 ("prompt", JStr "a red bicycle")]) |};
     new_Date := 1700000000000 |}.

(** The flag of a render in which the payment is not confirmed, and of
    one in which it is. *)
Definition never_confirmed : nat -> bool := fun _ => false.

Definition already_confirmed : nat -> bool := fun _ => true.

(** A flag that would turn true once [n] sleeps have passed. *)
Definition confirmed_after (n : nat) : nat -> bool :=
  fun k => (n <=? k)%nat.

(** An image of exactly 10 MiB. *)
Definition ten_MiB_png : File :=
  {| name := "large.png";
     type := "image/png";
     size := 10 * 1024 * 1024;
     arrayBuffer := repeat Byte.x00 (N.to_nat (10 * 1024 * 1024)) |}.

(** A text file. *)
Definition notes_txt : File :=
  {| name := "notes.txt";
     type := "text/plain";
     size := 3;
     arrayBuffer := [Byte.x4d; Byte.x61; Byte.x6e] |}.

Definition small_png : File :=
  {| name := "cat.png";
     type := "image/png";
     size := 3;
     arrayBuffer := [Byte.x4d; Byte.x61; Byte.x6e] |}.

(** A render with a prompt and an uploaded image. *)
Definition upload_render : State :=
  with_uploadedImage (Some small_png)
    (with_prompt "make it blue" initial_state).

Definition usdc_on_base : FixedDelay.Token :=
  {| FixedDelay.address := "0x833589fCD6eDb6E08f4c7C32D4f71b54bdA02913";
     FixedDelay.decimals := 6 |}.

(** An endpoint that answers at time [t]. *)
Definition answering_at (t : Z) : Env :=
  {| toast_id := IdNumber t;
     fetch_result := fetch_result answering;
     new_Date := t |}.

(** The image generated at time [t] for the prompt of [idle_render]. *)
Definition image_at (t : Z) : GeneratedImage :=
  {| GeneratedImage.imageUrl := "https://replicate.delivery/out.png";
     GeneratedImage.prompt := "a red bicycle";
     GeneratedImage.timestamp := t |}.

(** The user types a prompt and generates six images in a row. *)
Definition six_generations : list Action :=
  Edit "a red bicycle"
  :: map (fun t => Generate (answering_at t) wallet already_confirmed)
       [1; 2; 3; 4; 5; 6]%Z.

(** ** Further vocabulary *)

(** The payment of the polling component and that of the fixed-delay
    one. *)
Definition polling_payment : TransactionRequest :=
  {| to := "0xaf59B12ea11914A0373ffbb13FF8b03F8537C599";
     data := None;
     value := Polling.payment_value |}.

Definition fixed_payment (USDC : FixedDelay.Token) : TransactionRequest :=
  {| to := FixedDelay.address USDC;
     data := Some (transfer "0xaf59B12ea11914A0373ffbb13FF8b03F8537C599"
                     (FixedDelay.parseUnits_tenth (FixedDelay.decimals USDC)));
     value := 0 |}.

(** The actions the JSX offers in a state: an image can be selected only
    among the recent ones. *)
Definition permitted (a : Action) (st : State) : Prop :=
  match a with
  | Select image => In image (View.recent st)
  | _ => True
  end.

(** The states a component can be in. *)
Inductive reachable : State -> Prop :=
| reachable_initial : reachable initial_state
| reachable_step a st :
    reachable st -> permitted a st -> reachable (state (perform a st)).

(** The text of a field as the multipart encoding of [fetch] writes it:
    every CR that no LF follows and every LF that no CR precedes becomes
    CR LF. *)
Fixpoint normalize_newlines (s : string) : string :=
  match s with
  | EmptyString => EmptyString
  | String c s' =>
      if Ascii.eqb c "013" then
        match s' with
        | String c' s'' =>
            if Ascii.eqb c' "010"
            then String "013" (String "010" (normalize_newlines s''))
            else String "013" (String "010" (normalize_newlines s'))
        | EmptyString => String "013" (String "010" EmptyString)
        end
      else if Ascii.eqb c "010"
      then String "013" (String "010" (normalize_newlines s'))
      else String c (normalize_newlines s')
  end.

(** A file as [request.formData()] reads it from its part: the bytes
    under the type of the file, or [application/octet-stream] when that
    is empty.  [filename] is what the encoder and the parser in use make
    of the name of a file, in which quotes and line breaks are escaped. *)
Definition received_file (filename : string -> string) (f : File) : File :=
  {| name := filename (name f);
     type := if truthy_string (type f) then type f
             else "application/octet-stream";
     size := size f;
     arrayBuffer := arrayBuffer f |}.

(** The body as [request.formData()] reads it.  The names of the fields,
    here [prompt] and [image], have nothing to escape and arrive as they
    are. *)
Definition multipart (filename : string -> string) (body : FormData)
  : FormData :=
  map (fun entry =>
         (fst entry,
          match snd entry with
          | EntryString s => EntryString (normalize_newlines s)
          | EntryFile f => EntryFile (received_file filename f)
          end)) body.

(** [fetch] answered by the endpoint itself: [POST] reads the body as the
    multipart encoding delivers it, and the response comes back with [ok]
    telling whether the status is in the range 200-299. *)
Definition endpoint_fetch (server : Route.Env) (filename : string -> string)
  : string -> FormData -> Thrown + Response :=
  fun _ body =>
    match Route.POST server
            {| Route.formData := inr (multipart filename body) |} [] with
    | (Normal resp, _) =>
        inr {| ok := ((200 <=? Route.status resp)
                      && (Route.status resp <? 300))%N;
               json := inr (Route.body resp) |}
    | (Throw e, _) => inl e
    end.

(** The browser of a user whose requests reach the endpoint. *)
Definition served_by (server : Route.Env) (filename : string -> string)
    (id : ToastId) (now : Z) : Env :=
  {| toast_id := id;
     fetch_result := endpoint_fetch server filename;
     new_Date := now |}.

(** A file [handleFileUpload] accepts. *)
Definition acceptable (f : File) : Prop :=
  startsWith (type f) "image/" = true /\ (size f <= 10 * 1024 * 1024)%N.

(** The message [new Error(apiData.error || "Failed to generate image")]
    carries. *)
Definition error_or_default (error : option JSON) : string :=
  message_or "Failed to generate image"
    (new_Error
       match error with
       | Some v => if truthy v then v else JStr "Failed to generate image"
       | None => JStr "Failed to generate image"
       end).

(** [v] is not a value the check of [imageUrl] lets through. *)
Definition invalid_url (v : option JSON) : Prop :=
  match v with
  | Some (JStr (String _ _)) => False
  | _ => True
  end.

(** Where what the shared steps throw comes from: [fetch], [json()], a
    property read on [null], the response that is not ok, the check of
    [imageUrl]. *)
Definition generation_failure (env : Env) (r : State) (e : Thrown) : Prop :=
  fetch_result env "/api/generate" (request_body r) = inl e
  \/ exists response,
      fetch_result env "/api/generate" (request_body r) = inr response
      /\ (json response = inl e
          \/ exists apiData,
              json response = inr apiData
              /\ ((ok response = false
                   /\ (get_property apiData "error" = inl e
                       \/ exists error,
                           get_property apiData "error" = inr error
                           /\ e = ErrorObject (error_or_default error)))
                  \/ (ok response = true
                      /\ (get_property apiData "imageUrl" = inl e
                          \/ exists v,
                              get_property apiData "imageUrl" = inr v
                              /\ invalid_url v
                              /\ e = ErrorObject
                                       "Invalid image URL received from API")))).

(** An endpoint that refuses, with a detail. *)
Definition refusing : Env :=
  {| toast_id := IdNumber 1;
     fetch_result := fun _ _ =>
       inr {| ok := false;
              json := inr (JObj [("error", JStr "Failed to generate image");
                                 ("details", JStr "model overloaded")]) |};
     new_Date := 1700000000000 |}.

(** The data URL made of an uploaded file. *)
Definition data_url (f : File) : string :=
  "data:" ++ (if truthy_string (type f) then type f else "image/png")
  ++ ";base64," ++ Route.base64 (map Byte.to_N (arrayBuffer f)).

(** The input [POST] gives the model for a prompt and an [image] field. *)
Definition model_input (p : FormDataEntryValue)
    (image : option FormDataEntryValue) : Route.Input :=
  {| Route.prompt := p;
     Route.image_input :=
       match image with
       | Some (EntryFile f) => [data_url f]
       | _ => []
       end;
     Route.aspect_ratio := "1:1";
     Route.output_format := "png" |}.

(** The request can be passed on to the model: it parsed, has a prompt,
    and its [image] field, if any, is a file or the empty string. *)
Definition passable (request : Route.Request) (fd : FormData)
    (p : FormDataEntryValue) : Prop :=
  Route.formData request = inr fd
  /\ get fd "prompt" = Some p
  /\ Route.truthy_entry (Some p) = true
  /\ (forall s, get fd "image" = Some (EntryString s) -> s = "").

(** The generation succeeds with the address [u]: the request can be
    passed on, the server has a token, the model resolves and [url()] of
    its output returns [u]. *)
Definition generation_succeeds (env : Route.Env) (request : Route.Request)
    (u : string) : Prop :=
  exists fd p output,
    passable request fd p
    /\ truthy_opt_string (Route.REPLICATE_API_TOKEN env) = true
    /\ Route.run env "google/nano-banana" (model_input p (get fd "image"))
       = inr output
    /\ Route.url output = inr u.

(** The failure responses of [POST]. *)
Definition failure_response (error : string) (details : option string)
    (status : N) : Route.NextResponse :=
  {| Route.body :=
       JObj (("error", JStr error)
             :: match details with
                | Some d => [("details", JStr d)]
                | None => []
                end);
     Route.status := status |}.

(** A server whose model is down. *)
Definition model_down : Route.Env :=
  {| Route.REPLICATE_API_TOKEN := Some "r8_token";
     Route.run := fun _ _ => inl (ErrorObject "model overloaded") |}.

(** The error messages a user served by the endpoint can be shown. *)
Definition shown_messages : list string :=
  ["Please enter a prompt";
   "Please connect your wallet first";
   "Payment confirmation timeout - transaction may have failed";
   "Server configuration error: Replicate API token not configured";
   "Failed to generate image";
   "Invalid image URL received from API"].

(** The prompt and the [image] field of a render as the endpoint reads
    them. *)
Definition received_prompt (r : State) : FormDataEntryValue :=
  EntryString (normalize_newlines (prompt r)).

Definition received_image (filename : string -> string) (r : State)
  : option FormDataEntryValue :=
  match uploadedImage r with
  | Some f => Some (EntryFile (received_file filename f))
  | None => None
  end.

(** The request of a render as it arrives at the endpoint. *)
Definition request_of (filename : string -> string) (r : State)
  : Route.Request :=
  {| Route.formData := inr (multipart filename (request_body r)) |}.

(** The prompt the endpoint echoes for a render. *)
Definition echoed_prompt (r : State) : string :=
  match uploadedImage r with
  | Some _ => "Reimagined: " ++ normalize_newlines (prompt r)
  | None => normalize_newlines (prompt r)
  end.

(** A render whose prompt has a line break that is a lone LF. *)
Definition two_lines : State :=
  with_prompt (String "a" (String "010" "b")) initial_state.

(** A server whose model answers. *)
Definition model_up : Route.Env :=
  {| Route.REPLICATE_API_TOKEN := Some "r8_token";
     Route.run := fun _ _ =>
       inr {| Route.url := inr "https://replicate.delivery/out.png" |} |}.

(** A wallet library that accepts one address and one amount, and a form
    filled with them. *)
Definition one_recipient : Page.Env :=
  {| Page.isAddress := fun s =>
       String.eqb s "0x1111111111111111111111111111111111111111";
     Page.parseEther := fun s =>
       if String.eqb s "0.01" then inr 10000000000000000%Z
       else inl (ErrorObject "InvalidDecimalNumberError");
     Page.toast_id := IdNumber 7 |}.

Definition send_form : Page.State :=
  {| Page.isDialogOpen := true;
     Page.toAddress := "0x1111111111111111111111111111111111111111";
     Page.amount := "0.01";
     Page.toastId := None |}.

(** The page once a transaction is submitted. *)
Definition submitted (env : Page.Env) : Page.State :=
  {| Page.isDialogOpen := false;
     Page.toAddress := "";
     Page.amount := "";
     Page.toastId := Some (Page.toast_id env) |}.

(** A download whose address answers 404 with a body. *)
Definition not_found_page : Download.Env :=
  {| Download.fetch_result := fun _ =>
       inr {| Download.ok := false;
              Download.blob := inr [Byte.x4e; Byte.x6f] |};
     Download.object_url := fun _ => "blob:1" |}.

(** * Properties *)

Opaque Polling.wait_loop.

(** ** Lists of effects *)

Lemma repeat_shift {A} (x : A) n l :
  (repeat x n ++ x :: l = x :: repeat x n ++ l)%list.
Proof.
  induction n as [|n IH]; simpl; [reflexivity|]. now rewrite IH.
Qed.

Lemma firstn_app_firstn {A} n (l1 l2 : list A) :
  firstn n (l1 ++ firstn n l2) = firstn n (l1 ++ l2).
Proof.
  rewrite !firstn_app, firstn_firstn. f_equal. f_equal. lia.
Qed.

Lemma generation_calls_app l1 l2 :
  generation_calls (l1 ++ l2)
  = (generation_calls l1 ++ generation_calls l2)%list.
Proof. apply flat_map_app. Qed.

Lemma generation_calls_sleeps n :
  generation_calls (repeat (setTimeout 1000) n) = [].
Proof. induction n; simpl; auto. Qed.

Lemma generation_calls_single e :
  rev (generation_calls [e]) = generation_calls [e].
Proof.
  destruct e; try reflexivity. simpl.
  destruct (String.eqb url "/api/generate"); reflexivity.
Qed.

Lemma generation_calls_rev l :
  generation_calls (rev l) = rev (generation_calls l).
Proof.
  induction l as [|e l IH]; [reflexivity|].
  cbn [rev]. rewrite generation_calls_app, IH.
  pose proof (generation_calls_app [e] l) as H. cbn [app] in H.
  now rewrite H, rev_app_distr, generation_calls_single.
Qed.

Lemma error_toast_trace w :
  error_toast (trace w) <-> error_toast (events w).
Proof.
  unfold error_toast, trace. split; intros [m H]; exists m.
  - now apply in_rev.
  - now apply in_rev in H.
Qed.

Lemma is_success_toast_spec l :
  existsb is_success_toast l = true <-> In success_toast (rev l).
Proof.
  rewrite <- in_rev, existsb_exists. unfold success_toast. split.
  - intros (e & Hin & He). destruct e; try discriminate.
    apply String.eqb_eq in He. now subst.
  - intros H. eexists. split; [exact H|]. reflexivity.
Qed.

(** An effect of one kind is not among effects of other kinds: the
    membership is decided constructor by constructor. *)
Ltac absent H :=
  repeat (rewrite ?in_app_iff in H; cbn [In] in H);
  repeat match type of H with
         | _ \/ _ => destruct H as [H|H]
         | In _ (repeat _ _) => apply repeat_spec in H
         | False => contradiction
         | _ = _ => discriminate H
         end.

(** ** Strings *)

Lemma trimStart_empty s : trimStart s = "" <-> whitespace_only s = true.
Proof.
  unfold whitespace_only. induction s as [|c s IH]; cbn.
  - tauto.
  - destruct (isWhiteSpace c); cbn; [exact IH|]. split; discriminate.
Qed.

Lemma trimStart_head s :
  match trimStart s with
  | EmptyString => True
  | String c _ => isWhiteSpace c = false
  end.
Proof.
  induction s as [|c s IH]; cbn; [exact I|].
  destruct (isWhiteSpace c) eqn:E; [exact IH | exact E].
Qed.

Lemma reverse_empty s : reverse s = "" -> s = "".
Proof.
  unfold reverse. intros H.
  apply (f_equal list_ascii_of_string) in H.
  rewrite list_ascii_of_string_of_list_ascii in H. cbn in H.
  apply (f_equal (@rev ascii)) in H. rewrite rev_involutive in H. cbn in H.
  apply (f_equal string_of_list_ascii) in H.
  now rewrite string_of_list_ascii_of_string in H.
Qed.

Lemma whitespace_only_reverse s :
  whitespace_only (reverse s) = true <-> whitespace_only s = true.
Proof.
  unfold whitespace_only, reverse.
  rewrite list_ascii_of_string_of_list_ascii, !forallb_forall.
  split; intros H c Hc; apply H; [now apply -> in_rev | now apply in_rev].
Qed.

(** [!prompt.trim()] holds exactly of the strings made of white space,
    the empty one among them. *)
Lemma trim_empty s : trim s = "" <-> whitespace_only s = true.
Proof.
  unfold trim, trimEnd. split.
  - intros H. apply reverse_empty, trimStart_empty in H.
    apply -> whitespace_only_reverse in H.
    pose proof (trimStart_head s) as Hh.
    destruct (trimStart s) as [|c t] eqn:E.
    + now apply trimStart_empty.
    + unfold whitespace_only in H.
      cbn [list_ascii_of_string forallb] in H. rewrite Hh in H. discriminate.
  - intros H. apply trimStart_empty in H. rewrite H. reflexivity.
Qed.

Example trim_inner_space : trim "  a red  bicycle " = "a red  bicycle".
Proof. reflexivity. Qed.

(** ** The shared steps *)

Lemma request_body_prompt r :
  get (request_body r) "prompt" = Some (EntryString (prompt r)).
Proof. unfold request_body. destruct (uploadedImage r); reflexivity. Qed.

(** The steps send one request and then either throw, leaving the state
    alone, or store an image built from an accepted response. *)
Lemma generation_steps_spec env r w :
  exists o,
    generation_steps env r w = (completion o, after_generation r o w)
    /\ (forall img, o = Generated img -> accepted env r img).
Proof.
  unfold generation_steps, accepted.
  assert (Hb : (match uploadedImage r with
                | Some f => append (append [] "prompt" (EntryString (prompt r)))
                                   "image" (EntryFile f)
                | None => append [] "prompt" (EntryString (prompt r))
                end) = request_body r)
    by (unfold request_body; destruct (uploadedImage r); reflexivity).
  cbv zeta. rewrite Hb. clear Hb.
  unfold bind at 1. cbn [emit].
  unfold bind at 1.
  destruct (fetch_result env "/api/generate" (request_body r))
    as [e|[ok_ json_]] eqn:Hf; cbn -[String.append slice0].
  { exists (Failed e). split; [reflexivity | discriminate]. }
  unfold bind at 1.
  destruct json_ as [e|apiData]; cbn -[String.append slice0 get_property].
  { exists (Failed e). split; [reflexivity | discriminate]. }
  destruct ok_; cbn -[String.append slice0 get_property].
  2:{ unfold bind.
      destruct (get_property apiData "error") as [e|error];
        cbn -[String.append slice0 get_property];
        eexists (Failed _); (split; [reflexivity | discriminate]). }
  unfold bind.
  destruct (get_property apiData "imageUrl") as [e|[[| | |[|c u]| |]|]] eqn:Hu;
    cbn -[String.append slice0 get_property];
    try (eexists (Failed _); (split; [reflexivity | discriminate])).
  eexists (Generated _). split; [reflexivity|].
  intros img [= <-]. cbn -[String.append].
  exists {| ok := true; json := inr apiData |}, apiData.
  repeat split; try assumption; try reflexivity. discriminate.
Qed.

Lemma generation_calls_settled r o w :
  generation_calls (events (settled o (after_generation r o w)))
  = request_body r :: generation_calls (events w).
Proof. destruct o; reflexivity. Qed.

Lemma generation_calls_add_sleeps n w :
  generation_calls (events (add_sleeps n w)) = generation_calls (events w).
Proof.
  unfold add_sleeps, add_events. cbn [events].
  now rewrite generation_calls_app, generation_calls_sleeps.
Qed.

Lemma fetch_in_settled r o u m b w :
  In (fetch u m b) (events (settled o (after_generation r o w))) ->
  b = request_body r \/ In (fetch u m b) (events w).
Proof.
  destruct o; cbn [settled caught after_generation add_events events app In];
    intros H; repeat destruct H as [H|H]; try discriminate; auto;
    inversion H; auto.
Qed.

(** ** Validation *)

Lemma validation_cases r address :
  validated r address
  \/ truthy_string (trim (prompt r)) = false
  \/ (truthy_string (trim (prompt r)) = true
      /\ truthy_opt_string address = false).
Proof.
  unfold validated.
  destruct (truthy_string (trim (prompt r))), (truthy_opt_string address);
    auto.
Qed.

Lemma polling_not_validated env address isConfirmed r w :
  ~ validated r address ->
  exists msg,
    Polling.handleGenerate env address isConfirmed r w
    = (Normal tt, add_events [toast_error msg] w).
Proof.
  intros Hv. unfold Polling.handleGenerate.
  destruct (validation_cases r address) as [H|[H|[H1 H2]]].
  - contradiction.
  - rewrite H. eexists. reflexivity.
  - rewrite H1, H2. eexists. reflexivity.
Qed.

Lemma fixed_not_validated USDC env address r w :
  ~ validated r address ->
  exists msg,
    FixedDelay.handleGenerate USDC env address r w
    = (Normal tt, add_events [toast_error msg] w).
Proof.
  intros Hv. unfold FixedDelay.handleGenerate.
  destruct (validation_cases r address) as [H|[H|[H1 H2]]].
  - contradiction.
  - rewrite H. eexists. reflexivity.
  - rewrite H1, H2. eexists. reflexivity.
Qed.

(** Every run is of a validated render or stops at a validation toast. *)
Lemma validated_dec r address : validated r address \/ ~ validated r address.
Proof.
  destruct (validation_cases r address) as [H|[H|[_ H]]]; [now left| |];
    right; intros [H1 H2]; congruence.
Qed.

(** ** The polling component *)

(** The loop sleeps [n] times, sees the flag false before each of them,
    never sleeps more than [maxAttempts] times in all, and stops on a false
    flag only when the attempts are used up. *)
Lemma wait_loop_spec isConfirmed attempts w :
  exists n,
    Polling.wait_loop isConfirmed attempts w
    = (Normal (attempts + n), add_sleeps n w)
    /\ (forall k, attempts <= k < attempts + n -> isConfirmed k = false)
    /\ (attempts <= Polling.maxAttempts ->
        attempts + n <= Polling.maxAttempts)
    /\ (isConfirmed (attempts + n) = false ->
        Polling.maxAttempts <= attempts + n).
Proof.
  funelim (Polling.wait_loop isConfirmed attempts w).
  - clear H0 Heqcall.
    apply andb_prop in e. destruct e as [Hc Hlt].
    apply negb_true_iff in Hc. apply Nat.ltb_lt in Hlt.
    destruct (isConfirmed (S attempts)) eqn:Hs.
    + exists 1. rewrite Nat.add_1_r. repeat split.
      * intros k Hk. assert (k = attempts) by lia. now subst.
      * lia.
      * congruence.
    + destruct H as (n & Hw & Hall & Hle & Hmax).
      exists (S n). rewrite Hw.
      replace (attempts + S n) with (S attempts + n) by lia.
      repeat split.
      * unfold add_sleeps, add_events. simpl. now rewrite repeat_shift.
      * intros k Hk.
        destruct (Nat.eq_dec k attempts) as [->|]; [assumption|].
        apply Hall. lia.
      * intros _. apply Hle. lia.
      * assumption.
  - clear H Heqcall. exists 0. rewrite Nat.add_0_r. repeat split.
    + destruct w; reflexivity.
    + intros k Hk. lia.
    + auto.
    + apply andb_false_iff in e. destruct e as [e|e].
      * apply negb_false_iff in e. congruence.
      * intros _. apply Nat.ltb_ge in e. assumption.
Qed.

(** The handler with its last steps named. *)
Lemma polling_handleGenerate_steps env address isConfirmed r :
  Polling.handleGenerate env address isConfirmed r
  = if negb (truthy_string (trim (prompt r))) then
      emit (toast_error "Please enter a prompt")
    else if negb (truthy_opt_string address) then
      emit (toast_error "Please connect your wallet first")
    else
      setIsGenerating true ;;
      try_catch_finally
        (emit (sendTransaction
                 {| to := "0xaf59B12ea11914A0373ffbb13FF8b03F8537C599";
                    data := None;
                    value := Polling.payment_value |}) ;;
         emit (toast "Processing payment..."
                     "Paying 0.00005 ETH for image generation") ;;
         setToastId (Some (toast_id env)) ;;
         attempts <- Polling.wait_loop isConfirmed 0 ;;
         (if negb (isConfirmed attempts) then throw timeout_error
          else ret tt) ;;
         generation_steps env r)
        (fun error =>
           emit (console_error error) ;;
           emit (toast_error (message_or "Failed to generate image" error)))
        (setIsGenerating false ;;
         emit resetTransaction ;;
         if truthy_id (toastId r) then
           emit (toast_dismiss (toastId r)) ;;
           setToastId None
         else ret tt).
Proof. reflexivity. Qed.

(** A validated run returns.  It sleeps [n] times; then either the flag is
    still false, all attempts are used and the timeout is reported, or the
    flag is true and the shared steps run once. *)
Lemma polling_handleGenerate_spec env address isConfirmed r w :
  validated r address ->
  exists n,
    n <= Polling.maxAttempts
    /\ (forall k, k < n -> isConfirmed k = false)
    /\ (isConfirmed n = false -> n = Polling.maxAttempts)
    /\ ((isConfirmed n = false
         /\ Polling.handleGenerate env address isConfirmed r w
            = (Normal tt,
               polling_cleaned r
                 (caught timeout_error (add_sleeps n (polling_paid env w)))))
        \/ (isConfirmed n = true
            /\ exists o,
                (forall img, o = Generated img -> accepted env r img)
                /\ Polling.handleGenerate env address isConfirmed r w
                   = (Normal tt,
                      polling_cleaned r
                        (settled o
                           (after_generation r o
                              (add_sleeps n (polling_paid env w))))))).
Proof.
  intros [Hp Ha].
  destruct (wait_loop_spec isConfirmed 0 (polling_paid env w))
    as (n & Hw & Hall & Hle & Hmax).
  cbn [Nat.add] in *.
  exists n. split; [apply Hle; lia|]. split; [intros; apply Hall; lia|].
  split.
  { intros Hn. specialize (Hmax Hn). specialize (Hle (Nat.le_0_l _)). lia. }
  rewrite polling_handleGenerate_steps, Hp, Ha. cbn [negb].
  cbv beta iota zeta delta
    [bind emit modify setIsGenerating setToastId try_catch_finally
     try_catch state events].
  change (Polling.wait_loop isConfirmed 0 _)
    with (Polling.wait_loop isConfirmed 0 (polling_paid env w)).
  rewrite Hw.
  destruct (isConfirmed n) eqn:Hn; [right | left]; (split; [reflexivity|]).
  - destruct (generation_steps_spec env r (add_sleeps n (polling_paid env w)))
      as (o & Ho & Hacc).
    exists o. split; [assumption|].
    cbn [negb ret]. rewrite Ho.
    unfold polling_cleaned.
    destruct o; cbn [completion settled caught add_events state events app];
      destruct (truthy_id (toastId r)); reflexivity.
  - cbn [negb throw]. unfold polling_cleaned.
    cbn [caught add_events state events app].
    destruct (truthy_id (toastId r)); reflexivity.
Qed.

Lemma generation_calls_cleaned r w :
  generation_calls (events (polling_cleaned r w))
  = generation_calls (events w).
Proof.
  unfold polling_cleaned. destruct (truthy_id (toastId r)); reflexivity.
Qed.

Lemma results_cleaned r w :
  results (state (polling_cleaned r w)) = results (state w).
Proof.
  unfold polling_cleaned. destruct (truthy_id (toastId r)); reflexivity.
Qed.

Lemma error_toast_cleaned r w :
  error_toast (events (polling_cleaned r w)) <-> error_toast (events w).
Proof.
  unfold polling_cleaned, error_toast.
  destruct (truthy_id (toastId r)); cbn [events]; split; intros [m H];
    exists m; cbn [In] in *; intuition discriminate.
Qed.

Lemma success_toast_cleaned r w :
  In success_toast (trace (polling_cleaned r w))
  <-> In success_toast (trace w).
Proof.
  unfold trace. rewrite <- !in_rev. unfold polling_cleaned, success_toast.
  destruct (truthy_id (toastId r)); cbn [events In]; intuition discriminate.
Qed.

Lemma fetch_in_cleaned r u m b w :
  In (fetch u m b) (events (polling_cleaned r w)) ->
  In (fetch u m b) (events w).
Proof.
  unfold polling_cleaned. destruct (truthy_id (toastId r)); cbn [events In];
    intuition discriminate.
Qed.

(** ** The fixed-delay component *)

Lemma fixed_handleGenerate_steps USDC env address r :
  FixedDelay.handleGenerate USDC env address r
  = if negb (truthy_string (trim (prompt r))) then
      emit (toast_error "Please enter a prompt")
    else if negb (truthy_opt_string address) then
      emit (toast_error "Please connect your wallet first")
    else
      setIsGenerating true ;;
      try_catch_finally
        (emit (sendTransaction
                 {| to := FixedDelay.address USDC;
                    data := Some (transfer
                              "0xaf59B12ea11914A0373ffbb13FF8b03F8537C599"
                              (FixedDelay.parseUnits_tenth
                                 (FixedDelay.decimals USDC)));
                    value := 0 |}) ;;
         emit (setTimeout 1000) ;;
         generation_steps env r)
        (fun error =>
           emit (console_error error) ;;
           emit (toast_error (message_or "Failed to generate image" error)))
        (setIsGenerating false ;;
         emit resetTransaction).
Proof. reflexivity. Qed.

(** A validated run returns, having run the shared steps once after the
    transfer and one sleep. *)
Lemma fixed_handleGenerate_spec USDC env address r w :
  validated r address ->
  exists o,
    (forall img, o = Generated img -> accepted env r img)
    /\ FixedDelay.handleGenerate USDC env address r w
       = (Normal tt,
          fixed_cleaned
            (settled o (after_generation r o (fixed_paid USDC w)))).
Proof.
  intros [Hp Ha].
  destruct (generation_steps_spec env r (fixed_paid USDC w))
    as (o & Ho & Hacc).
  exists o. split; [assumption|].
  rewrite fixed_handleGenerate_steps, Hp, Ha. cbn [negb].
  cbv beta iota zeta delta
    [bind emit modify setIsGenerating try_catch_finally try_catch
     state events].
  change (generation_steps env r _)
    with (generation_steps env r (fixed_paid USDC w)).
  rewrite Ho.
  destruct o; reflexivity.
Qed.

(** ** How a run ends *)

Lemma ended_in_error_cleaned r st w :
  ended_in_error st w -> ended_in_error st (polling_cleaned r w).
Proof.
  unfold ended_in_error.
  now rewrite !error_toast_trace, error_toast_cleaned, results_cleaned,
    success_toast_cleaned.
Qed.

Lemma ended_with_cleaned r img st w :
  ended_with img st w -> ended_with img st (polling_cleaned r w).
Proof.
  unfold ended_with.
  now rewrite !error_toast_trace, error_toast_cleaned, results_cleaned,
    success_toast_cleaned.
Qed.

Lemma ended_caught e st w :
  results (state w) = results st ->
  ~ In success_toast (events w) ->
  ended_in_error st (caught e w).
Proof.
  intros Hr Hs. unfold ended_in_error.
  rewrite error_toast_trace. unfold trace. split; [|split].
  - eexists. left. reflexivity.
  - rewrite <- in_rev. cbn [caught add_events events app In].
    unfold success_toast in *. intuition discriminate.
  - assumption.
Qed.

Lemma ended_settled r o st w :
  results (state w) = results st ->
  ~ In success_toast (events w) ->
  ~ error_toast (events w) ->
  match o with
  | Failed _ => ended_in_error st (settled o (after_generation r o w))
  | Generated img => ended_with img st (settled o (after_generation r o w))
  end.
Proof.
  intros Hr Hs He. destruct o as [e|img]; cbn [settled].
  - apply ended_caught; [assumption|].
    cbn [after_generation add_events events app In].
    unfold success_toast in *. intuition discriminate.
  - unfold ended_with. rewrite error_toast_trace. unfold trace.
    rewrite <- in_rev. cbn [after_generation events state]. split; [|split].
    + intros [m Hm]. apply He. exists m.
      cbn [In] in Hm. intuition discriminate.
    + left. reflexivity.
    + unfold results, store in *. cbn. now inversion Hr.
Qed.

Lemma ended_at_validation msg st :
  ended_in_error st (add_events [toast_error msg] (start st)).
Proof.
  unfold ended_in_error. split; [|split].
  - exists msg. left. reflexivity.
  - cbn. unfold success_toast. intuition discriminate.
  - reflexivity.
Qed.

(** A run of the polling handler ends in an error toast with the results
    untouched, or with an image stored: then the render was validated, the
    flag was seen true within the attempts, and the response accepted. *)
Lemma polling_ending env address isConfirmed r st :
  let p := snd (Polling.handleGenerate env address isConfirmed r (start st)) in
  ended_in_error st p
  \/ (exists img,
        ended_with img st p
        /\ accepted env r img
        /\ validated r address
        /\ exists n, n <= Polling.maxAttempts /\ isConfirmed n = true).
Proof.
  intros p. subst p.
  destruct (validated_dec r address) as [Hv|Hnv].
  - destruct (polling_handleGenerate_spec env address isConfirmed r
                (start st) Hv)
      as (n & Hle & Hbefore & Hmax & [[Hn ->]|[Hn (o & Hacc & ->)]]);
      cbn [snd].
    + left. apply ended_in_error_cleaned.
      apply ended_caught; [reflexivity|].
      cbn [add_sleeps add_events polling_paid events start].
      unfold success_toast. intros H. absent H.
    + assert (Hs : ~ In success_toast
                       (events (add_sleeps n (polling_paid env (start st))))).
      { cbn [add_sleeps add_events polling_paid events start].
        unfold success_toast. intros H. absent H. }
      assert (He : ~ error_toast
                       (events (add_sleeps n (polling_paid env (start st))))).
      { intros [m H].
        cbn [add_sleeps add_events polling_paid events start] in H.
        absent H. }
      pose proof (ended_settled r o st
                    (add_sleeps n (polling_paid env (start st)))
                    eq_refl Hs He) as Hend.
      destruct o as [e|img].
      * left. now apply ended_in_error_cleaned.
      * right. exists img. split; [now apply ended_with_cleaned|].
        split; [auto|]. split; [assumption|]. exists n. auto.
  - left.
    destruct (polling_not_validated env address isConfirmed r (start st) Hnv)
      as (msg & ->).
    apply ended_at_validation.
Qed.

(** The same for the fixed-delay handler, where no flag is involved. *)
Lemma fixed_ending USDC env address r st :
  let f := snd (FixedDelay.handleGenerate USDC env address r (start st)) in
  ended_in_error st f
  \/ (exists img,
        ended_with img st f /\ accepted env r img /\ validated r address).
Proof.
  intros f. subst f.
  destruct (validated_dec r address) as [Hv|Hnv].
  - destruct (fixed_handleGenerate_spec USDC env address r (start st) Hv)
      as (o & Hacc & ->). cbn [snd].
    assert (Hs : ~ In success_toast (events (fixed_paid USDC (start st)))).
    { cbn. unfold success_toast. intuition discriminate. }
    assert (He : ~ error_toast (events (fixed_paid USDC (start st)))).
    { intros [m H]. cbn in H. intuition discriminate. }
    pose proof (ended_settled r o st (fixed_paid USDC (start st))
                  eq_refl Hs He) as Hend.
    assert (Hc : forall w,
               trace (fixed_cleaned w) = (trace w ++ [resetTransaction])%list)
      by reflexivity.
    destruct o as [e|img]; [left | right; exists img; split; [|auto]];
      destruct Hend as (H1 & H2 & H3).
    + unfold ended_in_error, error_toast in *. rewrite !Hc. split; [|split].
      * destruct H1 as [m H1]. exists m. apply in_or_app. now left.
      * rewrite in_app_iff. cbn [In]. unfold success_toast in *.
        intuition discriminate.
      * assumption.
    + unfold ended_with, error_toast in *. rewrite !Hc. split; [|split].
      * intros [m H]. apply H1. exists m.
        apply in_app_or in H. cbn [In] in H. intuition discriminate.
      * apply in_or_app. now left.
      * assumption.
  - left.
    destruct (fixed_not_validated USDC env address r (start st) Hnv)
      as (msg & ->).
    apply ended_at_validation.
Qed.

(** Every request either component sends has the body built from the
    render. *)
Lemma polling_fetch_body env address isConfirmed r st u m b :
  In (fetch u m b)
     (trace (snd (Polling.handleGenerate env address isConfirmed r
                    (start st)))) ->
  b = request_body r.
Proof.
  unfold trace. rewrite <- in_rev.
  destruct (validated_dec r address) as [Hv|Hnv].
  - destruct (polling_handleGenerate_spec env address isConfirmed r
                (start st) Hv)
      as (n & _ & _ & _ & [[_ ->]|[_ (o & _ & ->)]]); cbn [snd];
      intros H; apply fetch_in_cleaned in H.
    + cbn [caught add_sleeps add_events polling_paid events start] in H.
      absent H.
    + apply fetch_in_settled in H. destruct H as [H|H]; [assumption|].
      cbn [add_sleeps add_events events polling_paid start] in H.
      absent H.
  - destruct (polling_not_validated env address isConfirmed r (start st) Hnv)
      as (msg & ->).
    cbn. intuition discriminate.
Qed.

Lemma fixed_fetch_body USDC env address r st u m b :
  In (fetch u m b)
     (trace (snd (FixedDelay.handleGenerate USDC env address r (start st)))) ->
  b = request_body r.
Proof.
  unfold trace. rewrite <- in_rev.
  destruct (validated_dec r address) as [Hv|Hnv].
  - destruct (fixed_handleGenerate_spec USDC env address r (start st) Hv)
      as (o & _ & ->). cbn [snd fixed_cleaned events In].
    intros [H|H]; [discriminate|].
    apply fetch_in_settled in H. destruct H as [H|H]; [assumption|].
    cbn in H. intuition discriminate.
  - destruct (fixed_not_validated USDC env address r (start st) Hnv)
      as (msg & ->).
    cbn. intuition discriminate.
Qed.

(** ** The payment-gated flow *)

(** C1.  In the polling component, a validated call of [handleGenerate]
    during which the confirmation flag is false at every reading (before
    the first sleep and after each of the 30) returns after exactly 30
    one-second sleeps, reports the payment-timeout error, and sends nothing
    to the generation endpoint, nor anything else on the network. *)
Theorem polling_timeout_no_generation env address isConfirmed r st :
  validated r address ->
  (forall k, k <= Polling.maxAttempts -> isConfirmed k = false) ->
  let res := Polling.handleGenerate env address isConfirmed r (start st) in
  fst res = Normal tt
  /\ trace (snd res)
     = ([sendTransaction
           {| to := "0xaf59B12ea11914A0373ffbb13FF8b03F8537C599";
              data := None;
              value := Polling.payment_value |};
         toast "Processing payment..."
               "Paying 0.00005 ETH for image generation"]
        ++ repeat (setTimeout 1000) 30
        ++ [console_error timeout_error;
            toast_error
              "Payment confirmation timeout - transaction may have failed";
            resetTransaction]
        ++ (if truthy_id (toastId r) then [toast_dismiss (toastId r)]
            else []))%list
  /\ generation_calls (trace (snd res)) = []
  /\ network_calls (trace (snd res)) = [].
Proof.
  intros Hv Hnever res. subst res.
  destruct (polling_handleGenerate_spec env address isConfirmed r
              (start st) Hv)
    as (n & Hle & Hbefore & Hmax & [[Hn ->]|[Hn _]]).
  2:{ rewrite Hnever in Hn by assumption. discriminate. }
  rewrite (Hmax Hn). cbn [fst snd].
  split; [reflexivity|].
  unfold polling_cleaned.
  destruct (truthy_id (toastId r)); repeat split; reflexivity.
Qed.

Lemma polling_timeout_no_generation_witness :
  validated idle_render wallet
  /\ (forall k, k <= Polling.maxAttempts -> never_confirmed k = false)
  /\ generation_calls
       (trace (snd (Polling.handleGenerate unanswered wallet never_confirmed
                      idle_render (start idle_render)))) = [].
Proof.
  assert (Hv : validated idle_render wallet) by (split; reflexivity).
  assert (Hn : forall k, k <= Polling.maxAttempts -> never_confirmed k = false)
    by reflexivity.
  split; [exact Hv|]. split; [exact Hn|].
  exact (proj1 (proj2 (proj2
           (polling_timeout_no_generation unanswered wallet never_confirmed
              idle_render idle_render Hv Hn)))).
Defined.

(** C2.  In the polling component, a validated call of [handleGenerate]
    during which the confirmation flag is true at some reading within the
    30 attempts sends exactly one request to the generation endpoint, and
    the [prompt] field of that request is the prompt of the render, or its
    annotated variant when an image was attached. *)
Theorem polling_confirmed_one_generation env address isConfirmed r st :
  validated r address ->
  (exists k, k <= Polling.maxAttempts /\ isConfirmed k = true) ->
  let res := Polling.handleGenerate env address isConfirmed r (start st) in
  exists body,
    generation_calls (trace (snd res)) = [body]
    /\ (get body "prompt" = Some (EntryString (prompt r))
        \/ (uploadedImage r <> None
            /\ get body "prompt"
               = Some (EntryString ("Reimagined: " ++ prompt r)))).
Proof.
  intros Hv (k & Hk & Hconf) res. subst res.
  destruct (polling_handleGenerate_spec env address isConfirmed r
              (start st) Hv)
    as (n & Hle & Hbefore & Hmax & [[Hn _]|[Hn (o & _ & ->)]]).
  - exfalso. specialize (Hmax Hn). subst n.
    destruct (Nat.eq_dec k Polling.maxAttempts) as [->|Hne].
    + congruence.
    + rewrite Hbefore in Hconf by lia. discriminate.
  - exists (request_body r). split.
    + unfold trace. cbn [snd].
      rewrite generation_calls_rev, generation_calls_cleaned,
        generation_calls_settled, generation_calls_add_sleeps.
      reflexivity.
    + left. apply request_body_prompt.
Qed.

Lemma polling_confirmed_one_generation_witness :
  validated idle_render wallet
  /\ (exists k, k <= Polling.maxAttempts /\ already_confirmed k = true)
  /\ exists body,
       generation_calls
         (trace (snd (Polling.handleGenerate answering wallet
                        already_confirmed idle_render (start idle_render))))
       = [body]
       /\ (get body "prompt" = Some (EntryString (prompt idle_render))
           \/ (uploadedImage idle_render <> None
               /\ get body "prompt"
                  = Some (EntryString
                            ("Reimagined: " ++ prompt idle_render)))).
Proof.
  assert (Hv : validated idle_render wallet) by (split; reflexivity).
  assert (Hc : exists k,
             k <= Polling.maxAttempts /\ already_confirmed k = true).
  { exists 0. split; [unfold Polling.maxAttempts; lia | reflexivity]. }
  split; [exact Hv|]. split; [exact Hc|].
  exact (polling_confirmed_one_generation answering wallet already_confirmed
           idle_render idle_render Hv Hc).
Defined.

(** A call from a render in which the flag is already true: no sleep, one
    request with the prompt as typed, and the result heads the history. *)
Example red_bicycle_scenario :
  let res := Polling.handleGenerate answering wallet already_confirmed
               idle_render (start idle_render) in
  trace (snd res)
  = [sendTransaction
       {| to := "0xaf59B12ea11914A0373ffbb13FF8b03F8537C599";
          data := None;
          value := 50000000000000 |};
     toast "Processing payment..." "Paying 0.00005 ETH for image generation";
     fetch "/api/generate" "POST" [("prompt", EntryString "a red bicycle")];
     toast_success "Image generated successfully!";
     resetTransaction]
  /\ generationHistory (state (snd res))
     = [{| GeneratedImage.imageUrl := "https://replicate.delivery/out.png";
           GeneratedImage.prompt := "a red bicycle";
           GeneratedImage.timestamp := 1700000000000 |}].
Proof. split; reflexivity. Qed.

(** The loop as written leaves at the first reading that is true: were the
    flag to turn true after the third sleep, it would stop there. *)
Example wait_loop_stops_early :
  Polling.wait_loop (confirmed_after 3) 0 (start idle_render)
  = (Normal 3, add_sleeps 3 (start idle_render)).
Proof. vm_compute. reflexivity. Qed.

(** When the render that created the handler had no pending toast, the
    [finally] block leaves the identifier set by the handler in place and
    dismisses nothing: its test reads the [toastId] of that render. *)
Lemma polling_toast_kept_from_idle_render env address isConfirmed r st :
  validated r address ->
  truthy_id (toastId r) = false ->
  let res := Polling.handleGenerate env address isConfirmed r (start st) in
  toastId (state (snd res)) = Some (toast_id env)
  /\ forall id, ~ In (toast_dismiss id) (trace (snd res)).
Proof.
  intros Hv Hidle res. subst res. unfold trace.
  destruct (polling_handleGenerate_spec env address isConfirmed r
              (start st) Hv)
    as (n & _ & _ & _ & [[_ ->]|[_ (o & _ & ->)]]); cbn [snd];
    unfold polling_cleaned; rewrite Hidle.
  - split; [reflexivity|]. intros id H. apply in_rev in H.
    cbn [caught add_sleeps add_events polling_paid events start] in H.
    absent H.
  - split; [destruct o; reflexivity|]. intros id H. apply in_rev in H.
    destruct o;
      cbn [settled caught after_generation add_sleeps add_events
           polling_paid events start] in H;
      absent H.
Qed.

(** C3, at a call on which it fails.  The claim: after validation, every
    failure surfaces an error message and every exit resets the
    [isGenerating] flag, the transaction and the pending toast identifier.
    Here the component is idle, the wallet connected, and the payment never
    confirms: the timeout is reported, [isGenerating] and the transaction
    are reset, but the toast identifier set by the call stays [1] and the
    toast is never dismissed. *)
Example polling_toast_left_pending :
  let res := Polling.handleGenerate unanswered wallet never_confirmed
               idle_render (start idle_render) in
  toastId idle_render = None
  /\ fst res = Normal tt
  /\ In (toast_error
           "Payment confirmation timeout - transaction may have failed")
        (trace (snd res))
  /\ isGenerating (state (snd res)) = false
  /\ In resetTransaction (trace (snd res))
  /\ toastId (state (snd res)) = Some (IdNumber 1)
  /\ (forall id, ~ In (toast_dismiss id) (trace (snd res))).
Proof.
  cbv zeta. vm_compute.
  repeat split; auto 40.
  intros id H. repeat (destruct H as [H|H]; [discriminate|]). exact H.
Qed.

(** C4.  The two components are not equivalent.  The polling handler
    sends a generation request only if it saw the flag true within the
    attempts; the fixed-delay handler, once validated, submits the payment,
    sleeps one second and sends the request, with no flag in sight; and on
    a payment that never confirms the first sends nothing while the second
    sends its request. *)
Theorem variants_not_equivalent :
  (forall env address isConfirmed r st,
      generation_calls
        (trace (snd (Polling.handleGenerate env address isConfirmed r
                       (start st))))
      <> [] ->
      exists n, n <= Polling.maxAttempts /\ isConfirmed n = true)
  /\ (forall USDC env address r st,
         validated r address ->
         exists rest,
           trace (snd (FixedDelay.handleGenerate USDC env address r
                         (start st)))
           = (sendTransaction
                {| to := FixedDelay.address USDC;
                   data := Some (transfer
                             "0xaf59B12ea11914A0373ffbb13FF8b03F8537C599"
                             (FixedDelay.parseUnits_tenth
                                (FixedDelay.decimals USDC)));
                   value := 0 |}
              :: setTimeout 1000
              :: fetch "/api/generate" "POST" (request_body r)
              :: rest))
  /\ (validated idle_render wallet
      /\ generation_calls
           (trace (snd (Polling.handleGenerate answering wallet
                          never_confirmed idle_render (start idle_render))))
         = []
      /\ generation_calls
           (trace (snd (FixedDelay.handleGenerate usdc_on_base answering
                          wallet idle_render (start idle_render))))
         = [request_body idle_render]).
Proof.
  split; [|split].
  - intros env address isConfirmed r st Hcalls.
    destruct (validated_dec r address) as [Hv|Hnv].
    + destruct (polling_handleGenerate_spec env address isConfirmed r
                  (start st) Hv)
        as (n & Hle & Hbefore & Hmax & [[Hn Heq]|[Hn _]]).
      * exfalso. apply Hcalls. rewrite Heq. unfold trace. cbn [snd].
        rewrite generation_calls_rev, generation_calls_cleaned.
        unfold caught, add_events. cbn [events app].
        cbn [generation_calls flat_map app].
        fold (generation_calls
                (events (add_sleeps n (polling_paid env (start st))))).
        rewrite generation_calls_add_sleeps. reflexivity.
      * exists n. auto.
    + exfalso. apply Hcalls.
      destruct (polling_not_validated env address isConfirmed r (start st)
                  Hnv) as (msg & ->).
      reflexivity.
  - intros USDC env address r st Hv.
    destruct (fixed_handleGenerate_spec USDC env address r (start st) Hv)
      as (o & _ & ->).
    destruct o; eexists; reflexivity.
  - split; [split; reflexivity|]. split; reflexivity.
Qed.

Lemma variants_not_equivalent_witness :
  generation_calls
    (trace (snd (Polling.handleGenerate answering wallet already_confirmed
                   idle_render (start idle_render)))) <> []
  /\ exists n, n <= Polling.maxAttempts /\ already_confirmed n = true.
Proof.
  assert (H : generation_calls
                (trace (snd (Polling.handleGenerate answering wallet
                               already_confirmed idle_render
                               (start idle_render)))) <> [])
    by (vm_compute; discriminate).
  split; [exact H|].
  exact (proj1 variants_not_equivalent answering wallet already_confirmed
           idle_render idle_render H).
Defined.

(** ** Validation *)

(** C6.  When the prompt is empty once trimmed, or no wallet address is
    connected, [handleGenerate] (of either component) shows one validation
    error and returns: the state is untouched, no payment is submitted and
    nothing is put on the network. *)
Theorem invalid_input_no_payment_no_network
    USDC env address isConfirmed r st :
  trim (prompt r) = "" \/ address = None ->
  exists msg,
    Polling.handleGenerate env address isConfirmed r (start st)
    = (Normal tt, {| state := st; events := [toast_error msg] |})
    /\ FixedDelay.handleGenerate USDC env address r (start st)
       = (Normal tt, {| state := st; events := [toast_error msg] |})
    /\ payments [toast_error msg] = []
    /\ network_calls [toast_error msg] = [].
Proof.
  intros H. unfold Polling.handleGenerate, FixedDelay.handleGenerate.
  destruct (truthy_string (trim (prompt r))) eqn:Hp.
  - destruct H as [H| ->].
    + rewrite H in Hp. discriminate.
    + exists "Please connect your wallet first". repeat split.
  - exists "Please enter a prompt". repeat split.
Qed.

Lemma invalid_input_no_payment_no_network_witness :
  (trim (prompt (with_prompt "   " initial_state)) = "" \/ wallet = None)
  /\ exists msg,
       Polling.handleGenerate answering wallet already_confirmed
         (with_prompt "   " initial_state)
         (start (with_prompt "   " initial_state))
       = (Normal tt,
          {| state := with_prompt "   " initial_state;
             events := [toast_error msg] |})
       /\ FixedDelay.handleGenerate usdc_on_base answering wallet
            (with_prompt "   " initial_state)
            (start (with_prompt "   " initial_state))
          = (Normal tt,
             {| state := with_prompt "   " initial_state;
                events := [toast_error msg] |})
       /\ payments [toast_error msg] = []
       /\ network_calls [toast_error msg] = [].
Proof.
  assert (H : trim (prompt (with_prompt "   " initial_state)) = ""
              \/ wallet = None) by (left; reflexivity).
  split; [exact H|].
  exact (invalid_input_no_payment_no_network usdc_on_base answering wallet
           already_confirmed (with_prompt "   " initial_state)
           (with_prompt "   " initial_state) H).
Defined.

(** C7.  [handleFileUpload] rejects a file whose MIME type does not start
    with [image/] or whose size exceeds 10 * 1024 * 1024 bytes: it shows an
    error and changes no state, the uploaded image and the preview
    included.  A file of exactly that size with an image type is accepted:
    it becomes the uploaded image and its preview is requested. *)
Theorem upload_validation file w :
  ((startsWith (type file) "image/" = false
    \/ (10 * 1024 * 1024 < size file)%N) ->
   exists msg,
     handleFileUpload (Some file) w
     = (Normal tt,
        {| state := state w; events := toast_error msg :: events w |}))
  /\ (startsWith (type file) "image/" = true ->
      size file = (10 * 1024 * 1024)%N ->
      handleFileUpload (Some file) w
      = (Normal tt,
         {| state := with_uploadedImage (Some file) (state w);
            events := toast_success "Image uploaded successfully!"
                      :: readAsDataURL file :: events w |})).
Proof.
  unfold handleFileUpload. split.
  - intros H.
    destruct (startsWith (type file) "image/") eqn:Ht; cbn [negb].
    + destruct H as [H|H]; [discriminate|].
      apply N.ltb_lt in H. rewrite H. eexists. reflexivity.
    + eexists. reflexivity.
  - intros Ht Hs. rewrite Ht, Hs. reflexivity.
Qed.

Lemma upload_validation_witness :
  (startsWith (type notes_txt) "image/" = false
   /\ exists msg,
        handleFileUpload (Some notes_txt) (start initial_state)
        = (Normal tt,
           {| state := initial_state; events := [toast_error msg] |}))
  /\ (startsWith (type ten_MiB_png) "image/" = true
      /\ size ten_MiB_png = (10 * 1024 * 1024)%N
      /\ handleFileUpload (Some ten_MiB_png) (start initial_state)
         = (Normal tt,
            {| state := with_uploadedImage (Some ten_MiB_png) initial_state;
               events := [toast_success "Image uploaded successfully!";
                          readAsDataURL ten_MiB_png] |})).
Proof.
  split.
  - split; [reflexivity|].
    exact (proj1 (upload_validation notes_txt (start initial_state))
             (or_introl eq_refl)).
  - split; [reflexivity|]. split; [reflexivity|].
    exact (proj2 (upload_validation ten_MiB_png (start initial_state))
             eq_refl eq_refl).
Defined.

(** ** Results *)

(** C9.  In both components, a call of [handleGenerate] that shows an
    error (validation, payment timeout, a response that is not ok, a
    missing, empty or non-string [imageUrl], anything thrown by [fetch] or
    by [response.json()]) leaves the latest result and the history as they
    were; and whenever either of them changed, the response was ok and its
    [imageUrl] a non-empty string, from which the stored image was built. *)
Theorem results_unchanged_on_error USDC env address isConfirmed r st :
  let p := snd (Polling.handleGenerate env address isConfirmed r (start st)) in
  let f := snd (FixedDelay.handleGenerate USDC env address r (start st)) in
  (error_toast (trace p) -> results (state p) = results st)
  /\ (error_toast (trace f) -> results (state f) = results st)
  /\ (results (state p) <> results st ->
      exists img, accepted env r img
                  /\ results (state p) = results (store img st))
  /\ (results (state f) <> results st ->
      exists img, accepted env r img
                  /\ results (state f) = results (store img st)).
Proof.
  intros p f.
  pose proof (polling_ending env address isConfirmed r st) as Hp.
  pose proof (fixed_ending USDC env address r st) as Hf.
  cbv zeta in Hp, Hf. fold p in Hp. fold f in Hf.
  repeat split.
  - intros He. destruct Hp as [(_ & _ & H)|(img & (Hne & _) & _)];
      [assumption | contradiction].
  - intros He. destruct Hf as [(_ & _ & H)|(img & (Hne & _) & _)];
      [assumption | contradiction].
  - intros Hch. destruct Hp as [(_ & _ & H)|(img & (_ & _ & H) & Ha & _)];
      [contradiction | eauto].
  - intros Hch. destruct Hf as [(_ & _ & H)|(img & (_ & _ & H) & Ha & _)];
      [contradiction | eauto].
Qed.

Lemma results_unchanged_on_error_witness :
  error_toast
    (trace (snd (Polling.handleGenerate unanswered wallet already_confirmed
                   idle_render (start idle_render))))
  /\ results
       (state (snd (Polling.handleGenerate unanswered wallet
                      already_confirmed idle_render (start idle_render))))
     = results idle_render.
Proof.
  assert (He : error_toast
                 (trace (snd (Polling.handleGenerate unanswered wallet
                                already_confirmed idle_render
                                (start idle_render))))).
  { exists "Failed to fetch". vm_compute. auto 10. }
  split; [exact He|].
  exact (proj1 (results_unchanged_on_error usdc_on_base unanswered wallet
                  already_confirmed idle_render idle_render) He).
Defined.

(** ** The endpoint *)

Lemma prompt_missing_parsed fd :
  prompt_missing {| Route.formData := inr fd |}
  <-> Route.truthy_entry (get fd "prompt") = false.
Proof.
  unfold prompt_missing. cbn. split.
  - intros (fd' & [= <-] & H). assumption.
  - intros H. eauto.
Qed.

Lemma prompt_missing_unparsed e :
  ~ prompt_missing {| Route.formData := inl e |}.
Proof. intros (fd & H & _). discriminate. Qed.

Lemma token_missing_parsed env fd :
  token_missing env {| Route.formData := inr fd |}
  <-> Route.truthy_entry (get fd "prompt") = true
      /\ truthy_opt_string (Route.REPLICATE_API_TOKEN env) = false.
Proof.
  unfold token_missing. cbn. split.
  - intros (fd' & [= <-] & H). assumption.
  - intros H. eauto.
Qed.

Lemma token_missing_unparsed env e :
  ~ token_missing env {| Route.formData := inl e |}.
Proof. intros (fd & H & _). discriminate. Qed.

(** C8, where it fails.  With a prompt in the request and no API token on
    the server, the response is a failure other than the missing prompt and
    has no [details] member. *)
Lemma endpoint_details_absent_without_token :
  ~ endpoint_contract_with_details no_token_env text_request.
Proof.
  intros H.
  destruct (H _ _ eq_refl) as (_ & _ & H3).
  assert (H2xx : ~ is_2xx 500) by (unfold is_2xx; lia).
  assert (Hpresent : ~ prompt_missing text_request).
  { intros (fd & Hfd & Hp). inversion Hfd; subst fd. discriminate. }
  destruct (H3 H2xx Hpresent) as [_ Hd].
  apply Hd. reflexivity.
Qed.

(** Run [POST] as far as its next test. *)
Ltac post_steps :=
  cbv beta iota zeta delta
    [Route.POST try_catch bind await ret throw Route.formData Route.log].

(** The generation did not succeed: one of its conditions fails. *)
Ltac no_success :=
  let H := fresh in
  intros ? (? & ? & ? & (H & ? & ? & ?) & ? & ? & ?);
  try discriminate;
  cbn [Route.formData] in H; inversion H; subst;
  repeat match goal with
         | H1 : ?a = _, H2 : ?a = _ |- _ =>
             rewrite H1 in H2; try discriminate; inversion H2; subst;
             clear H2
         end;
  try discriminate.

Lemma success_has_prompt env request u :
  generation_succeeds env request u ->
  ~ prompt_missing request /\ ~ token_missing env request.
Proof.
  intros (fd & p & out & (Hfd & Hp & Ht & _) & Htok & _). split.
  - intros (fd' & Hfd' & H). rewrite Hfd in Hfd'. inversion Hfd'; subst.
    rewrite Hp in H. congruence.
  - intros (fd' & _ & _ & H). congruence.
Qed.

(** The four ways [POST] answers, told apart by the request and the
    server alone. *)
Lemma POST_cases env request :
  exists resp log,
    Route.POST env request [] = (Normal resp, log)
    /\ ((exists u,
            generation_succeeds env request u
            /\ Route.status resp = 200%N
            /\ get_property (Route.body resp) "imageUrl"
               = inr (Some (JStr u))
            /\ get_property (Route.body resp) "success"
               = inr (Some (JBool true)))
        \/ ((forall u, ~ generation_succeeds env request u)
            /\ ((prompt_missing request
                 /\ resp = failure_response "Prompt is required" None 400
                 /\ model_calls log = [])
                \/ (token_missing env request
                    /\ resp = failure_response
                         "Server configuration error: Replicate API token not configured"
                         None 500
                    /\ model_calls log = [])
                \/ (~ prompt_missing request
                    /\ ~ token_missing env request
                    /\ exists d,
                        resp = failure_response "Failed to generate image"
                                 (Some d) 500)))).
Proof.
  destruct request as [[e|fd]]; post_steps.
  { do 2 eexists. split; [reflexivity|]. right. split; [no_success|].
    do 2 right. split; [apply prompt_missing_unparsed|].
    split; [apply token_missing_unparsed|]. eexists. reflexivity. }
  pose proof (prompt_missing_parsed fd) as HPM.
  pose proof (token_missing_parsed env fd) as HTM.
  destruct (get fd "prompt") as [[[|c p]|pf]|] eqn:Hp; post_steps;
    cbn [Route.truthy_entry truthy_string] in HPM, HTM.
  1,4: do 2 eexists; (split; [reflexivity|]); right;
    (split; [unfold generation_succeeds, passable; no_success|]); left;
    split; [now apply HPM|split; reflexivity].
  all: assert (HnPM : ~ prompt_missing {| Route.formData := inr fd |})
    by (rewrite HPM; discriminate).
  all: destruct (Route.REPLICATE_API_TOKEN env) as [[|c' t]|] eqn:Htok;
    post_steps; cbn [truthy_opt_string truthy_string] in HTM;
    try (do 2 eexists; (split; [reflexivity|]); right;
         (split; [unfold generation_succeeds;
                  intros u (fd' & p' & out & _ & Ht & _);
                  rewrite Htok in Ht; discriminate|]);
         right; left;
         split; [apply HTM; split; reflexivity|split; reflexivity]).
  all: assert (HnTM : ~ token_missing env {| Route.formData := inr fd |})
    by (rewrite HTM; intros [_ H]; discriminate).
  all: destruct (get fd "image") as [[[|c'' s]|f]|] eqn:Hi; post_steps;
    try (do 2 eexists; (split; [reflexivity|]); right;
         (split; [unfold generation_succeeds, passable;
                  intros u (fd' & p' & out & (Hfd & Hp' & _ & Hs) & _);
                  cbn [Route.formData] in Hfd; inversion Hfd; subst fd';
                  specialize (Hs _ Hi); discriminate|]);
         do 2 right; split; [exact HnPM|]; split; [exact HnTM|];
         eexists; reflexivity).
  all: match goal with
       | |- context [Route.run ?v ?m ?i] =>
           destruct (Route.run v m i) as [e|[[e|u]]] eqn:Hrun
       end;
    post_steps.
  all: try (do 2 eexists; (split; [reflexivity|]); right;
            (split; [unfold generation_succeeds, passable;
                     intros u' (fd' & p' & out & (Hfd & Hp' & _ & _)
                                & _ & Hrun' & Hurl);
                     cbn [Route.formData] in Hfd; inversion Hfd; subst fd';
                     rewrite Hp in Hp'; inversion Hp'; subst p';
                     rewrite Hi in Hrun';
                     unfold model_input, data_url in Hrun';
                     rewrite Hrun in Hrun'; try discriminate;
                     inversion Hrun'; subst out; discriminate|]);
            do 2 right; split; [exact HnPM|]; split; [exact HnTM|];
            eexists; reflexivity).
  all: do 2 eexists; (split; [reflexivity|]); left; exists u;
    (split; [|split; [reflexivity|split; reflexivity]]);
    eexists fd, _, _;
    (split; [split; [reflexivity|]; split; [exact Hp|];
             split; [reflexivity|];
             intros s' Hs'; rewrite Hi in Hs'; congruence|]);
    (split; [rewrite Htok; reflexivity|]);
    rewrite Hi; split; [exact Hrun|reflexivity].
Qed.

(** C8, amended.  Every [POST] is answered, and the class of the status
    tells success from failure.  When the generation succeeds the answer
    has status 200, the address the model gave as [imageUrl] and a true
    [success]; when it does not, the status is not 2xx and the body has a
    string [error].  A 2xx answer has status 200, a string [imageUrl] and a
    true [success].  A missing prompt is answered with status 400 and a
    string [error], the model not being called.  A missing API token is
    answered with status 500 and a string [error], without [details], the
    model not being called.  Every other failure is answered with status
    500, a string [error] and a string [details]. *)
Theorem endpoint_contract env request :
  exists resp log,
    Route.POST env request [] = (Normal resp, log)
    /\ (forall u,
           generation_succeeds env request u ->
           Route.status resp = 200%N
           /\ get_property (Route.body resp) "imageUrl"
              = inr (Some (JStr u))
           /\ get_property (Route.body resp) "success"
              = inr (Some (JBool true)))
    /\ ((forall u, ~ generation_succeeds env request u) ->
        ~ is_2xx (Route.status resp)
        /\ has_string "error" (Route.body resp))
    /\ (is_2xx (Route.status resp) ->
        Route.status resp = 200%N
        /\ has_string "imageUrl" (Route.body resp)
        /\ get_property (Route.body resp) "success" = inr (Some (JBool true)))
    /\ (prompt_missing request ->
        Route.status resp = 400%N
        /\ has_string "error" (Route.body resp)
        /\ model_calls log = [])
    /\ (token_missing env request ->
        Route.status resp = 500%N
        /\ has_string "error" (Route.body resp)
        /\ get_property (Route.body resp) "details" = inr None
        /\ model_calls log = [])
    /\ (~ is_2xx (Route.status resp) ->
        ~ prompt_missing request -> ~ token_missing env request ->
        Route.status resp = 500%N
        /\ has_string "error" (Route.body resp)
        /\ has_string "details" (Route.body resp)).
Proof.
  destruct (POST_cases env request) as (resp & log & Heq & Hcases).
  exists resp, log. split; [exact Heq|].
  destruct Hcases
    as [(u & Hs & Hst & Hu & Hok)
       |(Hno & [(HPM & -> & Hlog)|[(HTM & -> & Hlog)
                                  |(HnPM & HnTM & d & ->)]])].
  - destruct (success_has_prompt _ _ _ Hs) as [HnPM HnTM].
    assert (H2xx : is_2xx (Route.status resp))
      by (rewrite Hst; unfold is_2xx; lia).
    split; [|split; [|split; [|split; [|split]]]].
    + intros u' Hs'. split; [exact Hst|]. split; [|exact Hok].
      destruct Hs as (fd & p & out & (Hfd & Hp & _) & _ & Hrun & Hurl).
      destruct Hs' as (fd' & p' & out' & (Hfd' & Hp' & _) & _ & Hrun' & Hurl').
      rewrite Hfd in Hfd'. inversion Hfd'; subst fd'.
      rewrite Hp in Hp'. inversion Hp'; subst p'.
      rewrite Hrun in Hrun'. inversion Hrun'; subst out'.
      rewrite Hurl in Hurl'. inversion Hurl'; subst u'. exact Hu.
    + intros Hno. exfalso. exact (Hno u Hs).
    + intros _. split; [exact Hst|]. split; [exists u; exact Hu|exact Hok].
    + intros H. contradiction.
    + intros H. contradiction.
    + intros H. contradiction.
  - assert (HnTM : ~ token_missing env request).
    { intros (fd & Hfd & Ht & _). destruct HPM as (fd' & Hfd' & Hf).
      rewrite Hfd in Hfd'. inversion Hfd'; subst. congruence. }
    unfold is_2xx, has_string. cbn.
    split; [intros u Hs; exfalso; exact (Hno u Hs)|].
    repeat split; intros; try lia; try contradiction; eauto.
  - assert (HnPM : ~ prompt_missing request).
    { intros (fd & Hfd & Hf). destruct HTM as (fd' & Hfd' & Ht & _).
      rewrite Hfd in Hfd'. inversion Hfd'; subst. congruence. }
    unfold is_2xx, has_string. cbn.
    split; [intros u Hs; exfalso; exact (Hno u Hs)|].
    repeat split; intros; try lia; try contradiction; eauto.
  - unfold is_2xx, has_string. cbn.
    split; [intros u Hs; exfalso; exact (Hno u Hs)|].
    repeat split; intros; try lia; try contradiction; eauto.
Qed.

Lemma endpoint_contract_witness :
  token_missing no_token_env text_request
  /\ exists resp log,
       Route.POST no_token_env text_request [] = (Normal resp, log)
       /\ Route.status resp = 500%N
       /\ has_string "error" (Route.body resp)
       /\ get_property (Route.body resp) "details" = inr None.
Proof.
  assert (Ht : token_missing no_token_env text_request).
  { eexists. split; [reflexivity|]. split; reflexivity. }
  split; [exact Ht|].
  destruct (endpoint_contract no_token_env text_request)
    as (resp & log & Heq & _ & _ & _ & _ & H3 & _).
  destruct (H3 Ht) as (Hs & He & Hd & _).
  exists resp, log. auto.
Defined.

(** A server with a token whose model answers a text request. *)
Example generation_succeeds_with_token :
  generation_succeeds model_up text_request
    "https://replicate.delivery/out.png"
  /\ fst (Route.POST model_up text_request [])
     = Normal {| Route.body :=
                   JObj [("success", JBool true);
                         ("imageUrl",
                          JStr "https://replicate.delivery/out.png");
                         ("prompt", JStr "a red bicycle")];
                 Route.status := 200 |}.
Proof.
  split; [|reflexivity].
  exists [("prompt", EntryString "a red bicycle")],
    (EntryString "a red bicycle"),
    {| Route.url := inr "https://replicate.delivery/out.png" |}.
  repeat split. intros s H. discriminate.
Qed.

(** A success response echoes the prompt, annotated exactly when the
    [image] field was a file; the model is given the prompt as sent. *)
Lemma POST_success_prompt env request resp log :
  Route.POST env request [] = (Normal resp, log) ->
  Route.status resp = 200%N ->
  exists fd p,
    Route.formData request = inr fd
    /\ get fd "prompt" = Some p
    /\ get_property (Route.body resp) "prompt"
       = inr (Some (match get fd "image" with
                    | Some (EntryFile _) =>
                        JStr ("Reimagined: " ++ Route.entry_ToString p)
                    | _ => Route.entry_to_JSON p
                    end))
    /\ (forall input, In input (model_calls log) -> Route.prompt input = p).
Proof.
  destruct request as [[e|fd]]; unfold Route.POST;
    unfold try_catch, bind at 1; cbn [await ret throw Route.formData].
  { intros [= <- <-]. discriminate. }
  destruct (get fd "prompt") as [[[|c p]|pf]|] eqn:Hp;
    try (intros [= <- <-]; discriminate).
  all: destruct (Route.REPLICATE_API_TOKEN env) as [[|c' t]|];
    try (intros [= <- <-]; discriminate).
  all: destruct (get fd "image") as [[[|c'' s]|f]|] eqn:Hi; unfold bind;
    cbn [Route.log await ret throw];
    try (intros [= <- <-]; discriminate).
  all: match goal with
       | |- context [Route.run ?v ?m ?i] =>
           destruct (Route.run v m i) as [e|[[e|u]]]
       end;
    cbn [Route.log await ret throw Route.url];
    intros [= <- <-]; try discriminate; intros _;
    exists fd; eexists; (split; [reflexivity|]); (split; [exact Hp|]);
    rewrite Hi; (split; [reflexivity|]);
    cbn; intros input [<-|[]]; reflexivity.
Qed.

(** An upload on the server: the image is passed on as a data URL and the
    echoed prompt is annotated. *)
Example make_it_blue_on_the_server :
  Route.POST
    {| Route.REPLICATE_API_TOKEN := Some "r8_token";
       Route.run := fun _ _ =>
         inr {| Route.url := inr "https://replicate.delivery/out.png" |} |}
    {| Route.formData := inr (request_body upload_render) |} []
  = (Normal
       {| Route.body :=
            JObj [("success", JBool true);
                  ("imageUrl", JStr "https://replicate.delivery/out.png");
                  ("prompt", JStr "Reimagined: make it blue")];
          Route.status := 200 |},
     [Route.replicate_run "r8_token" "google/nano-banana"
        {| Route.prompt := EntryString "make it blue";
           Route.image_input := ["data:image/png;base64,TWFu"];
           Route.aspect_ratio := "1:1";
           Route.output_format := "png" |};
      Route.console_log
        "Processing image-to-image generation with Nano Banana..."]).
Proof. reflexivity. Qed.

(** ** The prompt, sent and kept *)

(** C10.  Every request either component sends has as its [prompt] field
    the prompt of the render as it is, untrimmed and without prefix, with
    or without an image.  The image a successful call stores has the
    prompt prefixed with [Reimagined: ] exactly when an image was uploaded.
    The endpoint hands the model the prompt as received, and its success
    response echoes it prefixed exactly when the [image] field was a
    file. *)
Theorem prompt_sent_raw_stored_annotated :
  (forall env address isConfirmed r st u m b,
      In (fetch u m b)
         (trace (snd (Polling.handleGenerate env address isConfirmed r
                        (start st)))) ->
      get b "prompt" = Some (EntryString (prompt r)))
  /\ (forall USDC env address r st u m b,
         In (fetch u m b)
            (trace (snd (FixedDelay.handleGenerate USDC env address r
                           (start st)))) ->
         get b "prompt" = Some (EntryString (prompt r)))
  /\ (forall env address isConfirmed r st,
         let p := snd (Polling.handleGenerate env address isConfirmed r
                         (start st)) in
         In success_toast (trace p) ->
         exists img,
           generatedImage (state p) = Some img
           /\ GeneratedImage.prompt img
              = match uploadedImage r with
                | Some _ => "Reimagined: " ++ prompt r
                | None => prompt r
                end)
  /\ (forall USDC env address r st,
         let f := snd (FixedDelay.handleGenerate USDC env address r
                         (start st)) in
         In success_toast (trace f) ->
         exists img,
           generatedImage (state f) = Some img
           /\ GeneratedImage.prompt img
              = match uploadedImage r with
                | Some _ => "Reimagined: " ++ prompt r
                | None => prompt r
                end)
  /\ (forall env request resp log,
         Route.POST env request [] = (Normal resp, log) ->
         Route.status resp = 200%N ->
         exists fd p,
           Route.formData request = inr fd
           /\ get fd "prompt" = Some p
           /\ get_property (Route.body resp) "prompt"
              = inr (Some (match get fd "image" with
                           | Some (EntryFile _) =>
                               JStr ("Reimagined: " ++ Route.entry_ToString p)
                           | _ => Route.entry_to_JSON p
                           end))
           /\ (forall input,
                  In input (model_calls log) -> Route.prompt input = p)).
Proof.
  split; [|split; [|split; [|split]]].
  - intros * H. apply polling_fetch_body in H. subst b.
    apply request_body_prompt.
  - intros * H. apply fixed_fetch_body in H. subst b.
    apply request_body_prompt.
  - intros env address isConfirmed r st p Hs.
    destruct (polling_ending env address isConfirmed r st)
      as [(_ & Hn & _)|(img & (_ & _ & Hr) & Hacc & _)].
    + contradiction.
    + exists img. split.
      * fold p in Hr. now inversion Hr.
      * destruct Hacc as (? & ? & _ & _ & _ & _ & _ & Hprompt & _).
        exact Hprompt.
  - intros USDC env address r st f Hs.
    destruct (fixed_ending USDC env address r st)
      as [(_ & Hn & _)|(img & (_ & _ & Hr) & Hacc & _)].
    + contradiction.
    + exists img. split.
      * fold f in Hr. now inversion Hr.
      * destruct Hacc as (? & ? & _ & _ & _ & _ & _ & Hprompt & _).
        exact Hprompt.
  - apply POST_success_prompt.
Qed.

Lemma prompt_sent_raw_stored_annotated_witness :
  In success_toast
     (trace (snd (Polling.handleGenerate answering wallet already_confirmed
                    upload_render (start upload_render))))
  /\ exists img,
       generatedImage
         (state (snd (Polling.handleGenerate answering wallet
                        already_confirmed upload_render
                        (start upload_render))))
       = Some img
       /\ GeneratedImage.prompt img = "Reimagined: make it blue".
Proof.
  assert (Hs : In success_toast
                 (trace (snd (Polling.handleGenerate answering wallet
                                already_confirmed upload_render
                                (start upload_render))))).
  { vm_compute. auto 10. }
  split; [exact Hs|].
  exact (proj1 (proj2 (proj2 prompt_sent_raw_stored_annotated))
           answering wallet already_confirmed upload_render upload_render
           Hs).
Defined.

(** ** The history *)

Lemma generated_by_ended_in_error a st :
  ended_in_error st (perform a st) ->
  generated_by a st = []
  /\ generationHistory (state (perform a st)) = generationHistory st.
Proof.
  intros (_ & Hn & Hr). unfold generated_by. cbv zeta.
  destruct (existsb is_success_toast (events (perform a st))) eqn:E.
  - apply is_success_toast_spec in E. contradiction.
  - split; [reflexivity|]. now inversion Hr.
Qed.

Lemma generated_by_ended_with a st img :
  ended_with img st (perform a st) ->
  generated_by a st = [img]
  /\ generationHistory (state (perform a st))
     = img :: slice0 4 (generationHistory st).
Proof.
  intros (_ & Hs & Hr). unfold generated_by. cbv zeta.
  apply is_success_toast_spec in Hs. unfold trace in Hs.
  rewrite Hs. inversion Hr as [[Hg Hh]]. rewrite Hg. auto.
Qed.

(** An action leaves the history alone, or generates one image and puts it
    in front of the first four entries. *)
Lemma perform_history a st :
  (generated_by a st = []
   /\ generationHistory (state (perform a st)) = generationHistory st)
  \/ (exists img,
        generated_by a st = [img]
        /\ generationHistory (state (perform a st))
           = img :: slice0 4 (generationHistory st)).
Proof.
  destruct a as [p|[file|]|result| |image|c|env address c|USDC env address].
  - left. split; reflexivity.
  - left. unfold generated_by, perform, handleFileUpload.
    destruct (startsWith (type file) "image/"); cbn [negb];
      [destruct (10 * 1024 * 1024 <? size file)%N|]; split; reflexivity.
  - left. split; reflexivity.
  - left. split; reflexivity.
  - left. split; reflexivity.
  - left. split; reflexivity.
  - left. unfold generated_by, perform, Polling.confirmation_effect.
    destruct (toastId st), c; split; reflexivity.
  - destruct (polling_ending env address c st st)
      as [H|(img & H & _)].
    + left. now apply generated_by_ended_in_error.
    + right. exists img. now apply generated_by_ended_with.
  - destruct (fixed_ending USDC env address st st)
      as [H|(img & H & _)].
    + left. now apply generated_by_ended_in_error.
    + right. exists img. now apply generated_by_ended_with.
Qed.

(** From a history within the bound, a session leaves the five newest of
    what it generated and what was there. *)
Lemma session_history acts :
  forall st,
    length (generationHistory st) <= 5 ->
    generationHistory (session acts st)
    = firstn 5 (rev (generated acts st) ++ generationHistory st).
Proof.
  induction acts as [|a acts IH]; intros st Hlen; cbn [session generated].
  - cbn [rev app]. now rewrite firstn_all2.
  - destruct (perform_history a st) as [[Hg Hh]|(img & Hg & Hh)].
    + rewrite IH by (rewrite Hh; assumption).
      now rewrite Hg, Hh.
    + rewrite IH.
      * rewrite Hg, Hh. cbn [app rev].
        rewrite <- app_assoc. cbn [app].
        change (img :: slice0 4 (generationHistory st))
          with (firstn 5 (img :: generationHistory st)).
        apply firstn_app_firstn.
      * rewrite Hh. cbn [length]. unfold slice0.
        rewrite length_firstn. lia.
Qed.

(** C5.  After any session of either component, started from the initial
    state, the history has at most 5 entries and is the list of the (up to)
    five most recently generated images, newest first; a further
    successful generation puts its image in front and keeps the first four
    entries, so that of a full history the oldest entry is the one
    dropped. *)
Theorem history_five_newest_first acts :
  let st := session acts initial_state in
  length (generationHistory st) <= 5
  /\ generationHistory st = firstn 5 (rev (generated acts initial_state))
  /\ (forall a img,
         generated_by a st = [img] ->
         generationHistory (state (perform a st))
         = img :: firstn 4 (generationHistory st)).
Proof.
  intros st.
  assert (H : generationHistory st
              = firstn 5 (rev (generated acts initial_state))).
  { subst st. rewrite session_history by (cbn; lia).
    cbn [initial_state generationHistory]. now rewrite app_nil_r. }
  split; [|split].
  - rewrite H, length_firstn. lia.
  - exact H.
  - intros a img Hg.
    destruct (perform_history a st) as [[Hg' _]|(img' & Hg' & Hh)].
    + congruence.
    + rewrite Hg in Hg'. now inversion Hg'.
Qed.

Lemma history_five_newest_first_witness :
  let st := session six_generations initial_state in
  let a := GenerateAfterDelay usdc_on_base (answering_at 7) wallet in
  generated_by a st = [image_at 7]
  /\ generationHistory (state (perform a st))
     = image_at 7 :: firstn 4 (generationHistory st).
Proof.
  intros st a.
  assert (Hg : generated_by a st = [image_at 7]) by (vm_compute; reflexivity).
  split; [exact Hg|].
  exact (proj2 (proj2 (history_five_newest_first six_generations)) a
           (image_at 7) Hg).
Defined.

(** Six generations: the first image has left the history. *)
Example six_generations_history :
  generationHistory (session six_generations initial_state)
  = [image_at 6; image_at 5; image_at 4; image_at 3; image_at 2].
Proof. vm_compute. reflexivity. Qed.

(** * Further properties *)

(** ** The wait and the payment *)

(** X1.  The wait loop of the polling component returns after [n] sleeps,
    where [n] is at most 30, every reading before the [n]-th was false, and
    unless all 30 attempts were used the [n]-th reading was true: it leaves
    at the first true reading, or after 30 sleeps. *)
Theorem wait_loop_first_true isConfirmed w :
  exists n,
    Polling.wait_loop isConfirmed 0 w = (Normal n, add_sleeps n w)
    /\ n <= 30
    /\ (forall k, k < n -> isConfirmed k = false)
    /\ (n < 30 -> isConfirmed n = true).
Proof.
  destruct (wait_loop_spec isConfirmed 0 w) as (n & Hw & Hall & Hle & Hmax).
  cbn [Nat.add] in *. exists n. split; [exact Hw|].
  unfold Polling.maxAttempts in *.
  split; [apply Hle; lia|]. split; [intros; apply Hall; lia|].
  intros Hn. destruct (isConfirmed n) eqn:E; [reflexivity|].
  specialize (Hmax eq_refl). lia.
Qed.

Lemma payments_app l1 l2 :
  payments (l1 ++ l2) = (payments l1 ++ payments l2)%list.
Proof. apply flat_map_app. Qed.

Lemma payments_sleeps n : payments (repeat (setTimeout 1000) n) = [].
Proof. induction n; simpl; auto. Qed.

Lemma payments_single e : rev (payments [e]) = payments [e].
Proof. destruct e; reflexivity. Qed.

Lemma payments_rev l : payments (rev l) = rev (payments l).
Proof.
  induction l as [|e l IH]; [reflexivity|].
  cbn [rev]. rewrite payments_app, IH.
  pose proof (payments_app [e] l) as H. cbn [app] in H.
  now rewrite H, rev_app_distr, payments_single.
Qed.

Lemma payments_settled r o w :
  payments (events (settled o (after_generation r o w)))
  = payments (events w).
Proof. destruct o; reflexivity. Qed.

Lemma payments_cleaned r w :
  payments (events (polling_cleaned r w)) = payments (events w).
Proof.
  unfold polling_cleaned. destruct (truthy_id (toastId r)); reflexivity.
Qed.

Lemma payments_add_sleeps n w :
  payments (events (add_sleeps n w)) = payments (events w).
Proof.
  unfold add_sleeps, add_events. cbn [events].
  now rewrite payments_app, payments_sleeps.
Qed.

(** X2.  A validated call of [handleGenerate] submits exactly one payment
    transaction, whatever happens afterwards (timeout, failed or successful
    generation): 0.00005 ETH to the fixed recipient in the polling
    component, a transfer of a tenth of a token unit to it through the
    token contract in the fixed-delay one. *)
Theorem one_payment_per_validated_call
    USDC env address isConfirmed r st :
  validated r address ->
  payments
    (trace (snd (Polling.handleGenerate env address isConfirmed r
                   (start st))))
  = [polling_payment]
  /\ payments
       (trace (snd (FixedDelay.handleGenerate USDC env address r
                      (start st))))
     = [fixed_payment USDC].
Proof.
  intros Hv. unfold trace. rewrite !payments_rev. split.
  - destruct (polling_handleGenerate_spec env address isConfirmed r
                (start st) Hv)
      as (n & _ & _ & _ & [[_ ->]|[_ (o & _ & ->)]]); cbn [snd];
      rewrite payments_cleaned.
    + unfold caught, add_events. cbn [events app payments flat_map].
      fold (payments (events (add_sleeps n (polling_paid env (start st))))).
      now rewrite payments_add_sleeps.
    + now rewrite payments_settled, payments_add_sleeps.
  - destruct (fixed_handleGenerate_spec USDC env address r (start st) Hv)
      as (o & _ & ->). cbn [snd fixed_cleaned events payments flat_map app].
    fold (payments
            (events (settled o (after_generation r o
                                  (fixed_paid USDC (start st)))))).
    now rewrite payments_settled.
Qed.

Lemma one_payment_per_validated_call_witness :
  validated idle_render wallet
  /\ payments
       (trace (snd (Polling.handleGenerate unanswered wallet never_confirmed
                      idle_render (start idle_render))))
     = [polling_payment].
Proof.
  assert (Hv : validated idle_render wallet) by (split; reflexivity).
  split; [exact Hv|].
  exact (proj1 (one_payment_per_validated_call usdc_on_base unanswered wallet
                  never_confirmed idle_render idle_render Hv)).
Defined.

(** ** How every call ends *)

Lemma handleGenerate_returns USDC env address isConfirmed r w :
  fst (Polling.handleGenerate env address isConfirmed r w) = Normal tt
  /\ fst (FixedDelay.handleGenerate USDC env address r w) = Normal tt.
Proof.
  destruct (validated_dec r address) as [Hv|Hnv].
  - destruct (polling_handleGenerate_spec env address isConfirmed r w Hv)
      as (n & _ & _ & _ & [[_ ->]|[_ (o & _ & ->)]]);
      destruct (fixed_handleGenerate_spec USDC env address r w Hv)
        as (o' & _ & ->); split; reflexivity.
  - destruct (polling_not_validated env address isConfirmed r w Hnv)
      as (msg & ->).
    destruct (fixed_not_validated USDC env address r w Hnv) as (msg' & ->).
    split; reflexivity.
Qed.

Lemma validated_call_resets USDC env address isConfirmed r w :
  validated r address ->
  let p := snd (Polling.handleGenerate env address isConfirmed r w) in
  let f := snd (FixedDelay.handleGenerate USDC env address r w) in
  isGenerating (state p) = false
  /\ In resetTransaction (events p)
  /\ isGenerating (state f) = false
  /\ In resetTransaction (events f).
Proof.
  intros Hv p f. subst p f.
  destruct (polling_handleGenerate_spec env address isConfirmed r w Hv)
    as (n & _ & _ & _ & [[_ ->]|[_ (o & _ & ->)]]);
    destruct (fixed_handleGenerate_spec USDC env address r w Hv)
      as (o' & _ & ->); cbn [snd]; unfold polling_cleaned, fixed_cleaned;
    destruct (truthy_id (toastId r)); cbn [state events isGenerating
      with_isGenerating with_toastId In]; auto 6.
Qed.

(** X3.  In both components a call of [handleGenerate] never throws: the
    promise it returns is fulfilled.  It closes with exactly one kind of
    notification, an error toast or the success toast, never both and
    never neither.  After validation it leaves [isGenerating] false and has
    called [resetTransaction], whichever way it went. *)
Theorem handleGenerate_returns_and_notifies
    USDC env address isConfirmed r st :
  let p := Polling.handleGenerate env address isConfirmed r (start st) in
  let f := FixedDelay.handleGenerate USDC env address r (start st) in
  fst p = Normal tt
  /\ fst f = Normal tt
  /\ (error_toast (trace (snd p)) <-> ~ In success_toast (trace (snd p)))
  /\ (error_toast (trace (snd f)) <-> ~ In success_toast (trace (snd f)))
  /\ (validated r address ->
      isGenerating (state (snd p)) = false
      /\ In resetTransaction (trace (snd p))
      /\ isGenerating (state (snd f)) = false
      /\ In resetTransaction (trace (snd f))).
Proof.
  intros p f. subst p f.
  destruct (handleGenerate_returns USDC env address isConfirmed r (start st))
    as [Hp Hf].
  split; [exact Hp|]. split; [exact Hf|]. split; [|split].
  - destruct (polling_ending env address isConfirmed r st)
      as [(He & Hn & _)|(img & (Hne & Hs & _) & _)]; tauto.
  - destruct (fixed_ending USDC env address r st)
      as [(He & Hn & _)|(img & (Hne & Hs & _) & _)]; tauto.
  - intros Hv.
    destruct (validated_call_resets USDC env address isConfirmed r (start st)
                Hv) as (H1 & H2 & H3 & H4).
    unfold trace. rewrite <- !in_rev. auto.
Qed.

Lemma handleGenerate_returns_and_notifies_witness :
  validated idle_render wallet
  /\ isGenerating
       (state (snd (Polling.handleGenerate unanswered wallet
                      already_confirmed idle_render (start idle_render))))
     = false.
Proof.
  assert (Hv : validated idle_render wallet) by (split; reflexivity).
  split; [exact Hv|].
  exact (proj1 (proj2 (proj2 (proj2 (proj2
           (handleGenerate_returns_and_notifies usdc_on_base unanswered
              wallet already_confirmed idle_render idle_render)))) Hv)).
Defined.

(** ** The effect on confirmation *)

(** X4.  The effect of the polling component does nothing unless the
    receipt is confirmed and a toast is pending.  When it fires it clears
    the toast identifier, announces the confirmation, resets the
    transaction and dismisses the pending toast, leaving the other cells
    alone; in the render that follows it does nothing, whatever the flag:
    it fires once per pending toast. *)
Theorem confirmation_effect_fires_once isConfirmed r w :
  ((isConfirmed = false \/ toastId r = None) ->
   Polling.confirmation_effect isConfirmed r w = (Normal tt, w))
  /\ (forall id,
         isConfirmed = true -> toastId r = Some id ->
         Polling.confirmation_effect isConfirmed r w
         = (Normal tt,
            {| state := with_toastId None (state w);
               events := toast_dismiss (Some id)
                         :: resetTransaction
                         :: toast_success "Payment confirmed!"
                         :: events w |}))
  /\ (forall again w',
         Polling.confirmation_effect again
           (state (snd (Polling.confirmation_effect true r (start r)))) w'
         = (Normal tt, w')).
Proof.
  unfold Polling.confirmation_effect. split; [|split].
  - intros [-> | ->]; [destruct (toastId r)|]; reflexivity.
  - intros id -> ->. reflexivity.
  - intros again w'. destruct (toastId r) eqn:E; cbn.
    + reflexivity.
    + rewrite E. reflexivity.
Qed.

Lemma confirmation_effect_fires_once_witness :
  toastId (with_toastId (Some (IdNumber 1)) idle_render)
  = Some (IdNumber 1)
  /\ Polling.confirmation_effect true
       (with_toastId (Some (IdNumber 1)) idle_render)
       (start (with_toastId (Some (IdNumber 1)) idle_render))
     = (Normal tt,
        {| state := with_toastId None
                      (with_toastId (Some (IdNumber 1)) idle_render);
           events := [toast_dismiss (Some (IdNumber 1));
                      resetTransaction;
                      toast_success "Payment confirmed!"] |}).
Proof.
  split; [reflexivity|].
  exact (proj1 (proj2 (confirmation_effect_fires_once true
                         (with_toastId (Some (IdNumber 1)) idle_render)
                         (start (with_toastId (Some (IdNumber 1))
                                   idle_render))))
           (IdNumber 1) eq_refl eq_refl).
Defined.

(** ** What is displayed *)

Lemma in_firstn {A} n (x : A) l : In x (firstn n l) -> In x l.
Proof.
  intros H. rewrite <- (firstn_skipn n l). apply in_or_app. now left.
Qed.

Lemma in_skipn {A} n (x : A) l : In x (skipn n l) -> In x l.
Proof.
  intros H. rewrite <- (firstn_skipn n l). apply in_or_app. now right.
Qed.

(** An action leaves the results alone, displays the selected image, or
    stores an image built from an accepted response. *)
Lemma perform_results a st :
  results (state (perform a st)) = results st
  \/ (exists image,
         a = Select image
         /\ results (state (perform a st))
            = (Some image, generationHistory st))
  \/ (exists img env,
         accepted env st img
         /\ results (state (perform a st)) = results (store img st)).
Proof.
  destruct a as [p|[file|]|result| |image|c|env address c|USDC env address].
  - left. reflexivity.
  - left. unfold perform, handleFileUpload.
    destruct (startsWith (type file) "image/"); cbn [negb];
      [destruct (10 * 1024 * 1024 <? size file)%N|]; reflexivity.
  - left. reflexivity.
  - left. reflexivity.
  - left. reflexivity.
  - right. left. exists image. split; reflexivity.
  - left. unfold perform, Polling.confirmation_effect.
    destruct (toastId st), c; reflexivity.
  - destruct (polling_ending env address c st st)
      as [(_ & _ & H)|(img & (_ & _ & H) & Hacc & _)].
    + left. exact H.
    + right. right. exists img, env. split; assumption.
  - destruct (fixed_ending USDC env address st st)
      as [(_ & _ & H)|(img & (_ & _ & H) & Hacc & _)].
    + left. exact H.
    + right. right. exists img, env. split; assumption.
Qed.

(** Once the history has an entry, an image is displayed. *)
Lemma session_latest_set acts :
  forall st,
    (generatedImage st = None -> generationHistory st = []) ->
    generatedImage (session acts st) = None ->
    generationHistory (session acts st) = [].
Proof.
  induction acts as [|a acts IH]; intros st Hst; cbn [session]; [exact Hst|].
  apply IH.
  destruct (perform_results a st)
    as [H|[(image & _ & H)|(img & env & _ & H)]];
    inversion H as [[Hg Hh]]; rewrite ?Hg, ?Hh; try discriminate.
  exact Hst.
Qed.

(** X5.  In the polling component the section of recent generations is
    never rendered: it asks for more than one history entry and no
    displayed image, but after any sequence of actions from the initial
    state, each run to its end, the displayed image is set whenever the
    history has an entry, and nothing sets it back to null. *)
Theorem polling_recent_never_shown acts :
  let st := session acts initial_state in
  (generatedImage st = None -> generationHistory st = [])
  /\ View.polling_shows_recent st = false.
Proof.
  intros st.
  assert (H : generatedImage st = None -> generationHistory st = []).
  { apply session_latest_set. reflexivity. }
  split; [exact H|].
  unfold View.polling_shows_recent.
  destruct (generatedImage st) as [img|].
  - cbn. now rewrite andb_false_r.
  - rewrite H by reflexivity. reflexivity.
Qed.

(** X6.  In every state a component can reach, selecting only among the
    recent entries, the displayed image is one of the history entries, and
    none is displayed exactly when the history is empty. *)
Theorem displayed_image_in_history st :
  reachable st ->
  match generatedImage st with
  | Some img => In img (generationHistory st)
  | None => generationHistory st = []
  end.
Proof.
  induction 1 as [|a st Hr IH Hp]; [reflexivity|].
  destruct (perform_results a st)
    as [H|[(image & -> & H)|(img & env & _ & H)]];
    inversion H as [[Hg Hh]]; rewrite ?Hg, ?Hh.
  - exact IH.
  - cbn [permitted] in Hp. unfold View.recent in Hp.
    now apply in_skipn in Hp.
  - left. reflexivity.
Qed.

Lemma displayed_image_in_history_witness :
  reachable (state (perform (Generate answering wallet already_confirmed)
                      (state (perform (Edit "a red bicycle")
                                initial_state))))
  /\ In (image_at 1700000000000)
        (generationHistory
           (state (perform (Generate answering wallet already_confirmed)
                     (state (perform (Edit "a red bicycle")
                               initial_state))))).
Proof.
  assert (Hr : reachable
                 (state (perform (Generate answering wallet
                                    already_confirmed)
                           (state (perform (Edit "a red bicycle")
                                     initial_state))))).
  { apply reachable_step; [|exact I].
    apply reachable_step; [apply reachable_initial | exact I]. }
  split; [exact Hr|].
  exact (displayed_image_in_history _ Hr).
Defined.

(** X7.  Every entry of the history has a non-empty address: an image is
    stored only after [imageUrl] was checked. *)
Theorem history_urls_nonempty acts :
  Forall (fun img => GeneratedImage.imageUrl img <> "")
    (generationHistory (session acts initial_state)).
Proof.
  assert (H : forall st,
             Forall (fun img => GeneratedImage.imageUrl img <> "")
               (generationHistory st) ->
             Forall (fun img => GeneratedImage.imageUrl img <> "")
               (generationHistory (session acts st))).
  { induction acts as [|a acts IH]; intros st Hst; cbn [session];
      [exact Hst|].
    apply IH.
    destruct (perform_results a st)
      as [H|[(image & _ & H)|(img & env & Hacc & H)]];
      inversion H as [[Hg Hh]]; rewrite ?Hh; try exact Hst.
    constructor.
    - destruct Hacc as (? & ? & _ & _ & _ & _ & Hne & _). exact Hne.
    - rewrite Forall_forall in *. intros x Hx. apply Hst.
      apply (in_firstn 4 x (generationHistory st)). exact Hx. }
  apply H. constructor.
Qed.

(** ** Uploading and clearing *)

(** X8.  After an accepted upload and the arrival of its preview, the
    request of the next generation carries the file and the prompt to be
    stored is annotated; after [clearUploadedImage] the request carries the
    prompt alone and the prompt is stored as typed.  Upload, preview and
    clearing together give back a state that had no upload. *)
Theorem upload_then_clear f dataUrl st :
  acceptable f ->
  let uploaded := session [Choose (Some f); Loaded dataUrl] st in
  let cleared := session [Choose (Some f); Loaded dataUrl; Clear] st in
  uploadedImage uploaded = Some f
  /\ uploadedImagePreview uploaded = Some dataUrl
  /\ request_body uploaded
     = [("prompt", EntryString (prompt st)); ("image", EntryFile f)]
  /\ stored_prompt uploaded = "Reimagined: " ++ prompt st
  /\ request_body cleared = [("prompt", EntryString (prompt st))]
  /\ stored_prompt cleared = prompt st
  /\ (uploadedImage st = None -> uploadedImagePreview st = None ->
      cleared = st).
Proof.
  intros [Ht Hs] uploaded cleared. subst uploaded cleared.
  assert (Hu : perform (Choose (Some f)) st
               = {| state := with_uploadedImage (Some f) st;
                    events := [toast_success "Image uploaded successfully!";
                               readAsDataURL f] |}).
  { unfold perform, handleFileUpload. rewrite Ht. cbn [negb].
    apply N.ltb_ge in Hs. rewrite Hs. reflexivity. }
  cbn [session]. rewrite Hu. cbn -[String.append].
  repeat split.
  intros H1 H2. destruct st. cbn in *. now subst.
Qed.

Lemma upload_then_clear_witness :
  acceptable small_png
  /\ request_body
       (session [Choose (Some small_png); Loaded "data:image/png;base64,TWFu"]
          idle_render)
     = [("prompt", EntryString "a red bicycle");
        ("image", EntryFile small_png)]
  /\ session [Choose (Some small_png); Loaded "data:image/png;base64,TWFu";
              Clear] idle_render
     = idle_render.
Proof.
  assert (Ha : acceptable small_png).
  { split; [reflexivity|]. cbn. lia. }
  split; [exact Ha|].
  destruct (upload_then_clear small_png "data:image/png;base64,TWFu"
              idle_render Ha)
    as (_ & _ & Hb & _ & _ & _ & Hc).
  split; [exact Hb|]. exact (Hc eq_refl eq_refl).
Defined.

(** ** The outcome of the shared steps *)

(** The outcome does not depend on the world the steps start in. *)
Lemma generation_steps_uniform env r :
  exists o,
    (forall w,
        generation_steps env r w = (completion o, after_generation r o w))
    /\ (forall img, o = Generated img -> accepted env r img)
    /\ (forall e, o = Failed e -> generation_failure env r e).
Proof.
  unfold accepted, generation_failure.
  assert (Hb : forall w, generation_steps env r w
     = (response <- await (fetch_result env "/api/generate" (request_body r)) ;;
        apiData <- await (json response) ;;
        (if negb (ok response) then
           error <- await (get_property apiData "error") ;;
           throw (ErrorObject (error_or_default error))
         else ret tt) ;;
        imageUrl <- await (get_property apiData "imageUrl") ;;
        match imageUrl with
        | Some (JStr (String c u)) =>
            let newImage := {|
              GeneratedImage.imageUrl := String c u;
              GeneratedImage.prompt := stored_prompt r;
              GeneratedImage.timestamp := new_Date env |} in
            setGeneratedImage (Some newImage) ;;
            setGenerationHistory (fun prev => newImage :: slice0 4 prev) ;;
            emit (toast_success "Image generated successfully!")
        | _ => throw (ErrorObject "Invalid image URL received from API")
        end)
       (add_events [fetch "/api/generate" "POST" (request_body r)] w)).
  { intros w. unfold generation_steps, request_body, stored_prompt.
    destruct (uploadedImage r); reflexivity. }
  destruct (fetch_result env "/api/generate" (request_body r))
    as [e|[ok_ json_]] eqn:Hf.
  { exists (Failed e). split; [|split].
    - intros w. rewrite Hb. reflexivity.
    - discriminate.
    - intros e' [= <-]. now left. }
  destruct json_ as [e|apiData].
  { exists (Failed e). split; [|split].
    - intros w. rewrite Hb. reflexivity.
    - discriminate.
    - intros e' [= <-]. right. eexists. split; [reflexivity|]. now left. }
  destruct ok_.
  2:{ destruct (get_property apiData "error") as [e|error] eqn:He.
      - exists (Failed e). split; [|split].
        + intros w. rewrite Hb. cbn -[get_property]. unfold bind.
          rewrite He. reflexivity.
        + discriminate.
        + intros e' [= <-]. right. eexists. split; [reflexivity|].
          right. exists apiData. split; [reflexivity|]. left. cbn. auto.
      - exists (Failed (ErrorObject (error_or_default error))).
        split; [|split].
        + intros w. rewrite Hb. cbn -[get_property]. unfold bind.
          rewrite He. reflexivity.
        + discriminate.
        + intros e' [= <-]. right. eexists. split; [reflexivity|].
          right. exists apiData. split; [reflexivity|]. left. cbn.
          split; [reflexivity|]. right. eauto. }
  destruct (get_property apiData "imageUrl") as [e|v] eqn:Hu.
  { exists (Failed e). split; [|split].
    - intros w. rewrite Hb. cbn -[get_property]. unfold bind.
      rewrite Hu. reflexivity.
    - discriminate.
    - intros e' [= <-]. right. eexists. split; [reflexivity|].
      right. exists apiData. split; [reflexivity|]. right. cbn. auto. }
  assert (Hdec : invalid_url v \/ exists c u, v = Some (JStr (String c u))).
  { destruct v as [[| | |[|c u]| |]|]; cbn; eauto. }
  destruct Hdec as [Hinv|(c & u & ->)].
  - exists (Failed (ErrorObject "Invalid image URL received from API")).
    split; [|split].
    + intros w. rewrite Hb. cbn -[get_property]. unfold bind.
      rewrite Hu. destruct v as [[| | |[|c u]| |]|]; try reflexivity.
      destruct Hinv.
    + discriminate.
    + intros e' [= <-]. right. eexists. split; [reflexivity|].
      right. exists apiData. split; [reflexivity|]. right. cbn.
      split; [reflexivity|]. right. eauto.
  - eexists (Generated _). split; [|split].
    + intros w. rewrite Hb. cbn -[get_property stored_prompt]. unfold bind.
      rewrite Hu. reflexivity.
    + intros img [= <-]. cbn -[String.append].
      exists {| ok := true; json := inr apiData |}, apiData.
      repeat split; try assumption; try reflexivity. discriminate.
    + discriminate.
Qed.

(** The two handlers in terms of that outcome. *)
Lemma polling_handleGenerate_outcome env address isConfirmed r o w :
  validated r address ->
  (forall w', generation_steps env r w'
              = (completion o, after_generation r o w')) ->
  exists n,
    n <= Polling.maxAttempts
    /\ (forall k, k < n -> isConfirmed k = false)
    /\ (isConfirmed n = false -> n = Polling.maxAttempts)
    /\ Polling.handleGenerate env address isConfirmed r w
       = (Normal tt,
          polling_cleaned r
            (if isConfirmed n then
               settled o (after_generation r o
                            (add_sleeps n (polling_paid env w)))
             else caught timeout_error (add_sleeps n (polling_paid env w)))).
Proof.
  intros [Hp Ha] Ho.
  destruct (wait_loop_spec isConfirmed 0 (polling_paid env w))
    as (n & Hw & Hall & Hle & Hmax).
  cbn [Nat.add] in *.
  exists n. split; [apply Hle; lia|]. split; [intros; apply Hall; lia|].
  split.
  { intros Hn. specialize (Hmax Hn). specialize (Hle (Nat.le_0_l _)). lia. }
  rewrite polling_handleGenerate_steps, Hp, Ha. cbn [negb].
  cbv beta iota zeta delta
    [bind emit modify setIsGenerating setToastId try_catch_finally
     try_catch state events].
  change (Polling.wait_loop isConfirmed 0 _)
    with (Polling.wait_loop isConfirmed 0 (polling_paid env w)).
  rewrite Hw.
  destruct (isConfirmed n) eqn:Hn.
  - cbn [negb ret]. rewrite Ho.
    unfold polling_cleaned.
    destruct o; cbn [completion settled caught add_events state events app];
      destruct (truthy_id (toastId r)); reflexivity.
  - cbn [negb throw]. unfold polling_cleaned.
    cbn [caught add_events state events app].
    destruct (truthy_id (toastId r)); reflexivity.
Qed.

Lemma fixed_handleGenerate_outcome USDC env address r o w :
  validated r address ->
  (forall w', generation_steps env r w'
              = (completion o, after_generation r o w')) ->
  FixedDelay.handleGenerate USDC env address r w
  = (Normal tt,
     fixed_cleaned (settled o (after_generation r o (fixed_paid USDC w)))).
Proof.
  intros [Hp Ha] Ho.
  rewrite fixed_handleGenerate_steps, Hp, Ha. cbn [negb].
  cbv beta iota zeta delta
    [bind emit modify setIsGenerating try_catch_finally try_catch
     state events].
  change (generation_steps env r _)
    with (generation_steps env r (fixed_paid USDC w)).
  rewrite Ho.
  destruct o; reflexivity.
Qed.

Lemma toast_error_in_cleaned r msg w :
  In (toast_error msg) (events (polling_cleaned r w))
  <-> In (toast_error msg) (events w).
Proof.
  unfold polling_cleaned. destruct (truthy_id (toastId r)); cbn [events In];
    intuition discriminate.
Qed.

Lemma toast_error_in_settled r o msg w :
  In (toast_error msg) (events (settled o (after_generation r o w)))
  <-> (exists e, o = Failed e
                 /\ msg = message_or "Failed to generate image" e)
      \/ In (toast_error msg) (events w).
Proof.
  destruct o as [e|img];
    cbn [settled caught after_generation add_events events app In]; split.
  - intros [H|[H|[H|H]]]; try discriminate; auto.
    inversion H. left. eauto.
  - intros [(e' & [= <-] & ->)|H]; auto.
  - intros [H|[H|H]]; try discriminate; auto.
  - intros [(e' & H & _)|H]; [discriminate|auto].
Qed.

Lemma results_settled r o w :
  results (state (settled o (after_generation r o w)))
  = match o with
    | Failed _ => results (state w)
    | Generated img => results (store img (state w))
    end.
Proof. destruct o; reflexivity. Qed.

(** A flag seen true within the attempts is the one the loop stops at. *)
Lemma confirmed_within isConfirmed n :
  (exists k, k <= Polling.maxAttempts /\ isConfirmed k = true) ->
  (forall k, k < n -> isConfirmed k = false) ->
  (isConfirmed n = false -> n = Polling.maxAttempts) ->
  isConfirmed n = true.
Proof.
  intros (k & Hk & Hc) Hbefore Hmax.
  destruct (isConfirmed n) eqn:Hn; [reflexivity|].
  specialize (Hmax eq_refl). subst n.
  destruct (Nat.eq_dec k Polling.maxAttempts) as [->|Hne]; [congruence|].
  rewrite Hbefore in Hc by lia. discriminate.
Qed.

(** ** The two components side by side *)

(** X9.  Once the polling handler sees the payment confirmed, the two
    components generate alike: for the same render and the same answers of
    the network they send the same request, show the same error messages
    and leave the same latest result and history.  They differ in the
    payment, the wait and the pending toast only. *)
Theorem variants_agree_once_confirmed
    USDC env address isConfirmed r st :
  validated r address ->
  (exists k, k <= Polling.maxAttempts /\ isConfirmed k = true) ->
  let p := snd (Polling.handleGenerate env address isConfirmed r (start st)) in
  let f := snd (FixedDelay.handleGenerate USDC env address r (start st)) in
  results (state p) = results (state f)
  /\ generation_calls (trace p) = generation_calls (trace f)
  /\ (forall msg,
         In (toast_error msg) (trace p) <-> In (toast_error msg) (trace f))
  /\ (In success_toast (trace p) <-> In success_toast (trace f)).
Proof.
  intros Hv Hc p f. subst p f.
  destruct (generation_steps_uniform env r) as (o & Ho & _ & _).
  destruct (polling_handleGenerate_outcome env address isConfirmed r o
              (start st) Hv Ho) as (n & _ & Hbefore & Hmax & ->).
  rewrite (fixed_handleGenerate_outcome USDC env address r o (start st) Hv Ho).
  rewrite (confirmed_within isConfirmed n Hc Hbefore Hmax).
  cbn [snd]. split; [|split; [|split]].
  - rewrite results_cleaned. destruct o; reflexivity.
  - unfold trace. rewrite !generation_calls_rev, generation_calls_cleaned.
    cbn [fixed_cleaned events generation_calls flat_map app].
    fold (generation_calls
            (events (settled o (after_generation r o
                                  (fixed_paid USDC (start st)))))).
    rewrite !generation_calls_settled, generation_calls_add_sleeps.
    reflexivity.
  - intros msg. unfold trace. rewrite <- !in_rev, toast_error_in_cleaned.
    cbn [fixed_cleaned events In]. rewrite !toast_error_in_settled.
    split.
    + intros [H|H]; [right; left; exact H|].
      cbn [add_sleeps add_events polling_paid events start] in H. absent H.
    + intros [H|[H|H]]; [discriminate| left; exact H|].
      cbn [fixed_paid events start] in H. absent H.
  - rewrite success_toast_cleaned. unfold trace. rewrite <- !in_rev.
    unfold success_toast.
    destruct o;
      cbn [settled caught after_generation add_sleeps add_events
           fixed_cleaned fixed_paid polling_paid events start app];
      split; intros H; absent H; cbn [In]; auto.
Qed.

Lemma variants_agree_once_confirmed_witness :
  validated idle_render wallet
  /\ (exists k, k <= Polling.maxAttempts /\ already_confirmed k = true)
  /\ results
       (state (snd (Polling.handleGenerate answering wallet
                      already_confirmed idle_render (start idle_render))))
     = results
         (state (snd (FixedDelay.handleGenerate usdc_on_base answering
                        wallet idle_render (start idle_render)))).
Proof.
  assert (Hv : validated idle_render wallet) by (split; reflexivity).
  assert (Hc : exists k,
             k <= Polling.maxAttempts /\ already_confirmed k = true).
  { exists 0. split; [unfold Polling.maxAttempts; lia | reflexivity]. }
  split; [exact Hv|]. split; [exact Hc|].
  exact (proj1 (variants_agree_once_confirmed usdc_on_base answering wallet
                  already_confirmed idle_render idle_render Hv Hc)).
Defined.

(** ** The error the user is shown *)

Lemma refused_outcome env r o response apiData error :
  (forall img, o = Generated img -> accepted env r img) ->
  (forall e, o = Failed e -> generation_failure env r e) ->
  fetch_result env "/api/generate" (request_body r) = inr response ->
  ok response = false ->
  json response = inr apiData ->
  get_property apiData "error" = inr error ->
  o = Failed (ErrorObject (error_or_default error)).
Proof.
  intros Hacc Hfail Hf Hok Hj He. destruct o as [e|img].
  - f_equal. specialize (Hfail e eq_refl). unfold generation_failure in Hfail.
    rewrite Hf in Hfail.
    destruct Hfail as [H|(resp & [= <-] & H)]; [discriminate|].
    rewrite Hj, Hok in H.
    destruct H as [H|(data & [= <-] & H)]; [discriminate|].
    rewrite He in H.
    destruct H as [[_ [H|(err & [= <-] & ->)]]|[H _]];
      [discriminate|reflexivity|discriminate].
  - destruct (Hacc img eq_refl) as (resp & data & H1 & H2 & _).
    rewrite Hf in H1. inversion H1; subst resp. congruence.
Qed.

(** X10.  When the endpoint answers with a status that is not ok, the
    error toast of either component shows the message of
    [new Error(apiData.error || "Failed to generate image")]: the [error]
    member converted as [String] does if it is truthy (a string as it is,
    a number as [Number::toString] prints the double, the message of the
    [TypeError] for an object with a [toString] member) and "Failed to
    generate image" otherwise.  Nothing else of the body, [details]
    included, is shown, and the results stay as they were. *)
Theorem refused_generation_message
    USDC env address isConfirmed r st response apiData error :
  validated r address ->
  (exists k, k <= Polling.maxAttempts /\ isConfirmed k = true) ->
  fetch_result env "/api/generate" (request_body r) = inr response ->
  ok response = false ->
  json response = inr apiData ->
  get_property apiData "error" = inr error ->
  let p := snd (Polling.handleGenerate env address isConfirmed r (start st)) in
  let f := snd (FixedDelay.handleGenerate USDC env address r (start st)) in
  (forall msg, In (toast_error msg) (trace p)
               <-> msg = error_or_default error)
  /\ (forall msg, In (toast_error msg) (trace f)
                  <-> msg = error_or_default error)
  /\ results (state p) = results st
  /\ results (state f) = results st.
Proof.
  intros Hv Hc Hf Hok Hj He p f. subst p f.
  destruct (generation_steps_uniform env r) as (o & Ho & Hacc & Hfail).
  pose proof (refused_outcome env r o response apiData error
                Hacc Hfail Hf Hok Hj He) as ->.
  destruct (polling_handleGenerate_outcome env address isConfirmed r _
              (start st) Hv Ho) as (n & _ & Hbefore & Hmax & ->).
  rewrite (fixed_handleGenerate_outcome USDC env address r _ (start st) Hv Ho).
  rewrite (confirmed_within isConfirmed n Hc Hbefore Hmax).
  cbn [snd]. unfold trace. split; [|split; [|split]].
  - intros msg. rewrite <- in_rev, toast_error_in_cleaned,
      toast_error_in_settled. cbn [message_or]. split.
    + intros [(e & [= <-] & ->)|H]; [reflexivity|].
      cbn [add_sleeps add_events polling_paid events start] in H. absent H.
    + intros ->. left. eauto.
  - intros msg. rewrite <- in_rev. cbn [fixed_cleaned events In].
    rewrite toast_error_in_settled. split.
    + intros [H|[(e & [= <-] & ->)|H]]; [discriminate|reflexivity|].
      cbn [fixed_paid events start] in H. absent H.
    + intros ->. right. left. eauto.
  - rewrite results_cleaned. reflexivity.
  - reflexivity.
Qed.

Lemma refused_generation_message_witness :
  In (toast_error "Failed to generate image")
     (trace (snd (Polling.handleGenerate refusing wallet already_confirmed
                    idle_render (start idle_render))))
  /\ ~ In (toast_error "model overloaded")
          (trace (snd (Polling.handleGenerate refusing wallet
                         already_confirmed idle_render
                         (start idle_render)))).
Proof.
  assert (Hv : validated idle_render wallet) by (split; reflexivity).
  assert (Hc : exists k,
             k <= Polling.maxAttempts /\ already_confirmed k = true).
  { exists 0. split; [unfold Polling.maxAttempts; lia | reflexivity]. }
  pose proof (proj1 (refused_generation_message usdc_on_base refusing wallet
                       already_confirmed idle_render idle_render
                       _ _ _ Hv Hc eq_refl eq_refl eq_refl eq_refl)) as H.
  split.
  - apply H. reflexivity.
  - intros Hin. apply H in Hin. discriminate.
Defined.

(** What the toast shows for some [error] members that are not strings. *)
Example error_member_conversions :
  error_or_default (Some (JNum (10 ^ 21))) = "1e+21"
  /\ error_or_default (Some (JNum (2 ^ 64))) = "18446744073709552000"
  /\ error_or_default (Some (JNum (2 ^ 53 + 1))) = "9007199254740992"
  /\ error_or_default (Some (JNum (-42))) = "-42"
  /\ error_or_default (Some (JNum 0)) = "Failed to generate image"
  /\ error_or_default (Some (JObj [("code", JNum 1)])) = "[object Object]"
  /\ error_or_default (Some (JObj [("toString", JNum 1)]))
     = "Cannot convert object to primitive value"
  /\ error_or_default (Some (JArr [JNum 1; JNull; JArr [JStr "a"; JBool true]]))
     = "1,,a,true"
  /\ error_or_default (Some (JArr [])) = "".
Proof. vm_compute. repeat split. Qed.

(** ** The endpoint and the model *)

(** X11.  [POST] calls the model at most once, and exactly once when the
    request can be passed on and the server has a token.  The call is
    authenticated with that token, names the model [google/nano-banana],
    and its input has the prompt as received, the aspect ratio 1:1, the
    output format png and, as [image_input], the one data URL of the
    uploaded file (with its type, or [image/png] when the type is empty)
    or nothing. *)
Theorem model_called_at_most_once env request :
  let log := snd (Route.POST env request []) in
  (model_calls log = []
   \/ exists fd p token,
       passable request fd p
       /\ Route.REPLICATE_API_TOKEN env = Some token
       /\ token <> ""
       /\ model_calls log = [model_input p (get fd "image")]
       /\ In (Route.replicate_run token "google/nano-banana"
                (model_input p (get fd "image"))) log)
  /\ (forall fd p,
         passable request fd p ->
         truthy_opt_string (Route.REPLICATE_API_TOKEN env) = true ->
         model_calls log = [model_input p (get fd "image")]).
Proof.
  intros log. subst log. unfold passable.
  destruct request as [[e|fd]]; post_steps.
  { split; [left; reflexivity|]. intros fd p (H & _). discriminate. }
  destruct (get fd "prompt") as [[[|c p]|pf]|] eqn:Hp; post_steps.
  1,4: split; [left; reflexivity|];
    intros fd' p' ([= <-] & Hp' & Ht & _); rewrite Hp in Hp';
    inversion Hp'; subst; discriminate.
  all: destruct (Route.REPLICATE_API_TOKEN env) as [[|c' t]|] eqn:Htok;
    post_steps;
    try (split; [left; reflexivity|]; intros fd' p' _ Ht; discriminate).
  all: destruct (get fd "image") as [[[|c'' s]|f]|] eqn:Hi; post_steps;
    try (split; [left; reflexivity|];
         intros fd' p' ([= <-] & _ & _ & Hs);
         specialize (Hs _ Hi); discriminate).
  all: match goal with
       | |- context [Route.run ?v ?m ?i] =>
           destruct (Route.run v m i) as [e|[[e|u]]]
       end;
    post_steps; cbn [snd];
    (split;
     [right; exists fd; eexists; eexists;
      split; [split; [reflexivity|]; split; [exact Hp|];
              split; [reflexivity|];
              intros s' Hs'; rewrite Hi in Hs'; congruence|];
      split; [reflexivity|]; split; [discriminate|];
      rewrite Hi; split; [reflexivity|]; cbn; auto
     |intros fd' p' ([= <-] & Hp' & _ & _) _; rewrite Hp in Hp';
      inversion Hp'; subst p'; rewrite Hi; reflexivity]).
Qed.

Lemma model_called_at_most_once_witness :
  passable {| Route.formData := inr (request_body upload_render) |}
    (request_body upload_render) (EntryString "make it blue")
  /\ model_calls
       (snd (Route.POST model_down
               {| Route.formData := inr (request_body upload_render) |} []))
     = [{| Route.prompt := EntryString "make it blue";
           Route.image_input := ["data:image/png;base64,TWFu"];
           Route.aspect_ratio := "1:1";
           Route.output_format := "png" |}].
Proof.
  assert (Hp : passable
                 {| Route.formData := inr (request_body upload_render) |}
                 (request_body upload_render) (EntryString "make it blue")).
  { repeat split. intros s H. discriminate. }
  split; [exact Hp|].
  exact (proj2 (model_called_at_most_once model_down
                  {| Route.formData := inr (request_body upload_render) |})
           _ _ Hp eq_refl).
Defined.

(** X12.  When the model call is rejected, or [url()] of its output
    throws, [POST] answers with status 500, the error "Failed to generate
    image" and, as [details], the message of what was thrown, or "Unknown
    error occurred" when that is not an [Error]; the same when the body of
    the request cannot be parsed. *)
Theorem details_carry_thrown_message env request :
  (forall e,
      Route.formData request = inl e ->
      fst (Route.POST env request [])
      = Normal (failure_response "Failed to generate image"
                  (Some (message_or "Unknown error occurred" e)) 500))
  /\ (forall fd p e,
         passable request fd p ->
         truthy_opt_string (Route.REPLICATE_API_TOKEN env) = true ->
         Route.run env "google/nano-banana" (model_input p (get fd "image"))
         = inl e ->
         fst (Route.POST env request [])
         = Normal (failure_response "Failed to generate image"
                     (Some (message_or "Unknown error occurred" e)) 500))
  /\ (forall fd p output e,
         passable request fd p ->
         truthy_opt_string (Route.REPLICATE_API_TOKEN env) = true ->
         Route.run env "google/nano-banana" (model_input p (get fd "image"))
         = inr output ->
         Route.url output = inl e ->
         fst (Route.POST env request [])
         = Normal (failure_response "Failed to generate image"
                     (Some (message_or "Unknown error occurred" e)) 500)).
Proof.
  unfold passable.
  destruct request as [[e0|fd0]]; post_steps.
  { split; [|split].
    - intros e [= <-]. reflexivity.
    - intros fd p e (H & _). discriminate.
    - intros fd p output e (H & _). discriminate. }
  split; [intros e H; discriminate|].
  destruct (get fd0 "prompt") as [[[|c p]|pf]|] eqn:Hp; post_steps.
  1,4: split; [intros fd p' e ([= <-] & Hp' & Ht & _)
              |intros fd p' output e ([= <-] & Hp' & Ht & _)];
    rewrite Hp in Hp'; inversion Hp'; subst; discriminate.
  all: destruct (Route.REPLICATE_API_TOKEN env) as [[|c' t]|] eqn:Htok;
    post_steps;
    try (split; [intros fd p' e _ Ht | intros fd p' output e _ Ht];
         discriminate).
  all: destruct (get fd0 "image") as [[[|c'' s]|f]|] eqn:Hi; post_steps;
    try (split; [intros fd p' e ([= <-] & _ & _ & Hs)
                |intros fd p' output e ([= <-] & _ & _ & Hs)];
         specialize (Hs _ Hi); discriminate).
  all: split;
    [intros fd p' e ([= <-] & Hp' & _ & _) _ Hrun
    |intros fd p' output e ([= <-] & Hp' & _ & _) _ Hrun Hurl];
    rewrite Hp in Hp'; inversion Hp'; subst p'; rewrite Hi in Hrun;
    unfold model_input, data_url in Hrun; rewrite Hrun;
    post_steps; cbn [fst]; try reflexivity;
    rewrite Hurl; reflexivity.
Qed.

Lemma details_carry_thrown_message_witness :
  passable text_request [("prompt", EntryString "a red bicycle")]
    (EntryString "a red bicycle")
  /\ fst (Route.POST model_down text_request [])
     = Normal (failure_response "Failed to generate image"
                 (Some "model overloaded") 500).
Proof.
  assert (Hp : passable text_request
                 [("prompt", EntryString "a red bicycle")]
                 (EntryString "a red bicycle")).
  { repeat split. intros s H. discriminate. }
  split; [exact Hp|].
  exact (proj1 (proj2 (details_carry_thrown_message model_down text_request))
           _ _ (ErrorObject "model overloaded") Hp eq_refl eq_refl).
Defined.

(** ** Browser and endpoint together *)

Lemma normalize_newlines_truthy s :
  truthy_string (normalize_newlines s) = truthy_string s.
Proof.
  destruct s as [|c s]; [reflexivity|]. cbn [normalize_newlines].
  destruct (Ascii.eqb c "013").
  - destruct s as [|c' s]; [reflexivity|].
    destruct (Ascii.eqb c' "010"); reflexivity.
  - destruct (Ascii.eqb c "010"); reflexivity.
Qed.

Lemma received_body_prompt filename r :
  get (multipart filename (request_body r)) "prompt"
  = Some (received_prompt r).
Proof. unfold request_body. destruct (uploadedImage r); reflexivity. Qed.

Lemma received_body_image filename r :
  get (multipart filename (request_body r)) "image"
  = received_image filename r.
Proof.
  unfold request_body, received_image.
  destruct (uploadedImage r); reflexivity.
Qed.

Lemma trimmed_nonempty s :
  truthy_string (trim s) = true -> truthy_string s = true.
Proof. destruct s; [discriminate | reflexivity]. Qed.

(** The prompt of a validated render is not missing at the endpoint. *)
Lemma validated_prompt_received filename r :
  truthy_string (prompt r) = true ->
  ~ prompt_missing (request_of filename r).
Proof.
  intros Hp Hm. unfold request_of in Hm. apply prompt_missing_parsed in Hm.
  rewrite received_body_prompt in Hm. unfold received_prompt in Hm.
  cbn [Route.truthy_entry] in Hm. rewrite normalize_newlines_truthy in Hm.
  congruence.
Qed.

(** The responses [POST] can give. *)
Lemma POST_shapes env request :
  exists resp log,
    Route.POST env request [] = (Normal resp, log)
    /\ ((exists fd p u output,
            Route.formData request = inr fd
            /\ get fd "prompt" = Some p
            /\ Route.run env "google/nano-banana"
                 (model_input p (get fd "image")) = inr output
            /\ Route.url output = inr u
            /\ model_calls log = [model_input p (get fd "image")]
            /\ resp = {| Route.body :=
                           JObj [("success", JBool true);
                                 ("imageUrl", JStr u);
                                 ("prompt",
                                  match get fd "image" with
                                  | Some (EntryFile _) =>
                                      JStr ("Reimagined: "
                                            ++ Route.entry_ToString p)
                                  | _ => Route.entry_to_JSON p
                                  end)];
                         Route.status := 200 |})
        \/ (resp = failure_response "Prompt is required" None 400
            /\ prompt_missing request)
        \/ resp = failure_response
                    "Server configuration error: Replicate API token not configured"
                    None 500
        \/ exists d,
            resp = failure_response "Failed to generate image" (Some d) 500).
Proof.
  destruct request as [[e|fd]]; post_steps.
  { do 2 eexists. split; [reflexivity|]. do 3 right. eexists. reflexivity. }
  generalize (prompt_missing_parsed fd).
  generalize (prompt_missing {| Route.formData := inr fd |}). intros PM.
  destruct (get fd "prompt") as [[[|c p]|pf]|] eqn:Hp; post_steps;
    cbn [Route.truthy_entry truthy_string]; intros HPM.
  1,4: do 2 eexists; (split; [reflexivity|]); right; left;
    split; [reflexivity | now apply HPM].
  all: destruct (Route.REPLICATE_API_TOKEN env) as [[|c' t]|] eqn:Htok;
    post_steps;
    try (do 2 eexists; (split; [reflexivity|]); right; right; left;
         reflexivity).
  all: destruct (get fd "image") as [[[|c'' s]|f]|] eqn:Hi; post_steps;
    try (do 2 eexists; (split; [reflexivity|]); do 3 right;
         eexists; reflexivity).
  all: match goal with
       | |- context [Route.run ?v ?m ?i] =>
           destruct (Route.run v m i) as [e|[[e|u]]] eqn:Hrun
       end;
    post_steps;
    try (do 2 eexists; (split; [reflexivity|]); do 3 right;
         eexists; reflexivity).
  all: do 2 eexists; (split; [reflexivity|]); left;
    exists fd; do 3 eexists;
    split; [reflexivity|]; split; [exact Hp|];
    rewrite Hi; split; [exact Hrun|]; split; [reflexivity|];
    split; reflexivity.
Qed.

(** X13.  A request built by a validated call is always answered by the
    endpoint, and never with status 400: a prompt that is not empty once
    trimmed is not empty as typed, nor as the multipart encoding delivers
    it. *)
Theorem validated_request_never_400 server filename r address :
  validated r address ->
  exists resp log,
    Route.POST server (request_of filename r) [] = (Normal resp, log)
    /\ Route.status resp <> 400%N.
Proof.
  intros [Hp _]. apply trimmed_nonempty in Hp.
  destruct (POST_shapes server (request_of filename r))
    as (resp & log & Heq & [H|[[-> Hm]|[->|(d & ->)]]]);
    do 2 eexists; (split; [exact Heq|]).
  - destruct H as (fd & p & u & out & _ & _ & _ & _ & _ & ->).
    discriminate.
  - exfalso. exact (validated_prompt_received filename r Hp Hm).
  - discriminate.
  - discriminate.
Qed.

Lemma validated_request_never_400_witness :
  validated idle_render wallet
  /\ exists resp log,
       Route.POST no_token_env (request_of (fun s => s) idle_render) []
       = (Normal resp, log)
       /\ Route.status resp <> 400%N.
Proof.
  assert (Hv : validated idle_render wallet) by (split; reflexivity).
  split; [exact Hv|].
  exact (validated_request_never_400 no_token_env (fun s => s) idle_render
           wallet Hv).
Defined.

(** What an accepted response says when it comes from the endpoint. *)
Lemma accepted_from_endpoint server filename id now r img :
  accepted (served_by server filename id now) r img ->
  exists output resp log,
    Route.POST server (request_of filename r) [] = (Normal resp, log)
    /\ Route.status resp = 200%N
    /\ Route.run server "google/nano-banana"
         (model_input (received_prompt r) (received_image filename r))
       = inr output
    /\ Route.url output = inr (GeneratedImage.imageUrl img)
    /\ model_calls log
       = [model_input (received_prompt r) (received_image filename r)]
    /\ GeneratedImage.prompt img = stored_prompt r
    /\ get_property (Route.body resp) "prompt"
       = inr (Some (JStr (echoed_prompt r))).
Proof.
  intros (response & apiData & Hf & Hok & Hj & Hu & _ & Hprompt & _).
  cbn [served_by fetch_result] in Hf. unfold endpoint_fetch in Hf.
  fold (request_of filename r) in Hf.
  destruct (POST_shapes server (request_of filename r))
    as (resp & log & Heq & Hshape).
  rewrite Heq in Hf. inversion Hf; subst response. clear Hf.
  cbn [ok json] in Hok, Hj. inversion Hj; subst apiData. clear Hj.
  destruct Hshape as [H|[[-> _]|[->|(d & ->)]]]; try discriminate.
  destruct H as (fd & p & u & out & Hfd & Hp & Hrun & Hurl & Hcalls & ->).
  inversion Hfd; subst fd. clear Hfd.
  rewrite received_body_prompt in Hp. inversion Hp; subst p. clear Hp.
  rewrite received_body_image in *.
  cbn in Hu. inversion Hu as [Hu'].
  do 3 eexists. split; [exact Heq|]. split; [reflexivity|].
  split; [exact Hrun|]. split; [now rewrite Hurl, Hu'|].
  split; [exact Hcalls|]. split; [exact Hprompt|].
  unfold echoed_prompt, received_image, received_prompt.
  destruct (uploadedImage r); reflexivity.
Qed.

(** X14.  When a call served by the endpoint announces success, in either
    component, the endpoint answered 200 after calling the model once.
    The model was given the prompt as the multipart encoding delivers it,
    with every line break written CR LF, and the data URL of the uploaded
    file, if any, under its type or [application/octet-stream].  The
    address stored is the one [url()] gave for the model's output.  The
    prompt stored is the typed one, annotated or not; the one the endpoint
    echoes is the delivered one, annotated alike, so the two are equal
    when the typed prompt has no line break other than CR LF. *)
Theorem stored_image_is_model_output
    USDC server filename id now address isConfirmed r st :
  let env := served_by server filename id now in
  let p := snd (Polling.handleGenerate env address isConfirmed r (start st)) in
  let f := snd (FixedDelay.handleGenerate USDC env address r (start st)) in
  forall w, (w = p \/ w = f) ->
  In success_toast (trace w) ->
  exists img output resp log,
    generatedImage (state w) = Some img
    /\ Route.POST server (request_of filename r) [] = (Normal resp, log)
    /\ Route.status resp = 200%N
    /\ Route.run server "google/nano-banana"
         (model_input (received_prompt r) (received_image filename r))
       = inr output
    /\ Route.url output = inr (GeneratedImage.imageUrl img)
    /\ model_calls log
       = [model_input (received_prompt r) (received_image filename r)]
    /\ GeneratedImage.prompt img = stored_prompt r
    /\ get_property (Route.body resp) "prompt"
       = inr (Some (JStr (echoed_prompt r)))
    /\ (normalize_newlines (prompt r) = prompt r ->
        get_property (Route.body resp) "prompt"
        = inr (Some (JStr (GeneratedImage.prompt img)))).
Proof.
  intros env p f w Hw Hs.
  assert (H : exists img,
             results (state w) = results (store img st)
             /\ accepted env r img).
  { destruct Hw as [-> | ->]; subst p f.
    - destruct (polling_ending env address isConfirmed r st)
        as [(_ & Hn & _)|(img & (_ & _ & Hr) & Hacc & _)];
        [contradiction | eauto].
    - destruct (fixed_ending USDC env address r st)
        as [(_ & Hn & _)|(img & (_ & _ & Hr) & Hacc & _)];
        [contradiction | eauto]. }
  destruct H as (img & Hr & Hacc).
  destruct (accepted_from_endpoint server filename id now r img Hacc)
    as (output & resp & log & H1 & H2 & H3 & H4 & H5 & H6 & H7).
  exists img, output, resp, log.
  split; [now inversion Hr|].
  do 7 (split; [assumption|]).
  intros Hn. rewrite H7, H6. unfold echoed_prompt, stored_prompt.
  rewrite Hn. reflexivity.
Qed.

Lemma stored_image_is_model_output_witness :
  In success_toast
     (trace (snd (Polling.handleGenerate
                    (served_by model_up (fun s => s) (IdNumber 1)
                       1700000000000)
                    wallet already_confirmed upload_render
                    (start upload_render))))
  /\ exists img output resp log,
       generatedImage
         (state (snd (Polling.handleGenerate
                        (served_by model_up (fun s => s) (IdNumber 1)
                           1700000000000)
                        wallet already_confirmed upload_render
                        (start upload_render))))
       = Some img
       /\ Route.POST model_up (request_of (fun s => s) upload_render) []
          = (Normal resp, log)
       /\ Route.status resp = 200%N
       /\ Route.run model_up "google/nano-banana"
            (model_input (received_prompt upload_render)
               (received_image (fun s => s) upload_render)) = inr output
       /\ Route.url output = inr (GeneratedImage.imageUrl img)
       /\ model_calls log
          = [model_input (received_prompt upload_render)
               (received_image (fun s => s) upload_render)]
       /\ GeneratedImage.prompt img = stored_prompt upload_render
       /\ get_property (Route.body resp) "prompt"
          = inr (Some (JStr (echoed_prompt upload_render)))
       /\ (normalize_newlines (prompt upload_render) = prompt upload_render ->
           get_property (Route.body resp) "prompt"
           = inr (Some (JStr (GeneratedImage.prompt img)))).
Proof.
  assert (Hs : In success_toast
                 (trace (snd (Polling.handleGenerate
                                (served_by model_up (fun s => s) (IdNumber 1)
                                   1700000000000)
                                wallet already_confirmed upload_render
                                (start upload_render))))).
  { vm_compute. auto 10. }
  split; [exact Hs|].
  exact (stored_image_is_model_output usdc_on_base model_up (fun s => s)
           (IdNumber 1) 1700000000000 wallet already_confirmed upload_render
           upload_render _ (or_introl eq_refl) Hs).
Defined.

(** A lone LF in the prompt: the model and the echo have CR LF, the
    stored prompt has the LF. *)
Example lone_line_feed_on_the_way :
  let w := snd (FixedDelay.handleGenerate usdc_on_base
                  (served_by model_up (fun s => s) (IdNumber 1)
                     1700000000000)
                  wallet two_lines (start two_lines)) in
  option_map GeneratedImage.prompt (generatedImage (state w))
  = Some (String "a" (String "010" "b"))
  /\ echoed_prompt two_lines = String "a" (String "013" (String "010" "b"))
  /\ model_calls
       (snd (Route.POST model_up (request_of (fun s => s) two_lines) []))
     = [model_input
          (EntryString (String "a" (String "013" (String "010" "b"))))
          None].
Proof. vm_compute. repeat split. Qed.

(** What the shared steps can throw when the endpoint answers. *)
Lemma served_failures server filename id now r e :
  truthy_string (prompt r) = true ->
  generation_failure (served_by server filename id now) r e ->
  exists m,
    e = ErrorObject m
    /\ In m ["Server configuration error: Replicate API token not configured";
             "Failed to generate image";
             "Invalid image URL received from API"].
Proof.
  intros Hp Hfail. unfold generation_failure in Hfail.
  cbn [served_by fetch_result] in Hfail. unfold endpoint_fetch in Hfail.
  fold (request_of filename r) in Hfail.
  destruct (POST_shapes server (request_of filename r))
    as (resp & log & Heq & Hshape).
  rewrite Heq in Hfail.
  destruct Hfail as [H|(response & [= <-] & H)]; [discriminate|].
  cbn [ok json] in H.
  destruct H as [H|(apiData & [= <-] & H)]; [discriminate|].
  destruct Hshape as [Hs|[[-> Hm]|[->|(d & ->)]]].
  - destruct Hs as (fd & p & u & out & _ & _ & _ & _ & _ & ->).
    cbn in H.
    destruct H as [[H _]|[_ [H|(v & [= <-] & _ & ->)]]];
      try discriminate.
    eexists. split; [reflexivity|]. cbn. auto.
  - exfalso. exact (validated_prompt_received filename r Hp Hm).
  - cbn in H.
    destruct H as [[_ [H|(err & [= <-] & ->)]]|[H _]]; try discriminate.
    eexists. split; [reflexivity|]. cbn. auto.
  - cbn in H.
    destruct H as [[_ [H|(err & [= <-] & ->)]]|[H _]]; try discriminate.
    eexists. split; [reflexivity|]. cbn. auto.
Qed.

(** The toast of a call that stops at the validation. *)
Lemma not_validated_message USDC env address isConfirmed r w :
  ~ validated r address ->
  exists msg,
    In msg ["Please enter a prompt"; "Please connect your wallet first"]
    /\ Polling.handleGenerate env address isConfirmed r w
       = (Normal tt, add_events [toast_error msg] w)
    /\ FixedDelay.handleGenerate USDC env address r w
       = (Normal tt, add_events [toast_error msg] w).
Proof.
  intros Hv. unfold Polling.handleGenerate, FixedDelay.handleGenerate.
  destruct (validation_cases r address) as [H|[H|[H1 H2]]].
  - contradiction.
  - rewrite H. eexists. split; [|split; reflexivity]. cbn. auto.
  - rewrite H1, H2. eexists. split; [|split; reflexivity]. cbn. auto.
Qed.

(** X15.  Whatever the endpoint and the model do, the error toasts of a
    user served by the endpoint show one of six fixed messages: the text
    of what the model threw, which the endpoint puts in [details], never
    reaches the user, and neither does "Prompt is required". *)
Theorem served_error_messages
    USDC server filename id now address isConfirmed r st msg :
  let env := served_by server filename id now in
  let p := snd (Polling.handleGenerate env address isConfirmed r (start st)) in
  let f := snd (FixedDelay.handleGenerate USDC env address r (start st)) in
  In (toast_error msg) (trace p) \/ In (toast_error msg) (trace f) ->
  In msg shown_messages.
Proof.
  intros env p f Hin. subst p f.
  destruct (validated_dec r address) as [Hv|Hv].
  - destruct (generation_steps_uniform env r) as (o & Ho & Hacc & Hfail).
    destruct (polling_handleGenerate_outcome env address isConfirmed r _
                (start st) Hv Ho) as (n & _ & _ & _ & Hpe).
    rewrite Hpe in Hin.
    rewrite (fixed_handleGenerate_outcome USDC env address r _ (start st)
               Hv Ho) in Hin.
    cbn [snd] in Hin. unfold trace in Hin.
    assert (Hmsg : forall e, o = Failed e ->
                   msg = message_or "Failed to generate image" e ->
                   In msg shown_messages).
    { intros e -> ->.
      destruct (served_failures server filename id now r e) as (m & -> & Hm).
      - destruct Hv as [Hp _]. now apply trimmed_nonempty.
      - now apply Hfail.
      - cbn [message_or]. cbn in Hm. cbn. intuition. }
    destruct Hin as [Hin|Hin]; rewrite <- in_rev in Hin.
    + rewrite toast_error_in_cleaned in Hin.
      destruct (isConfirmed n).
      * rewrite toast_error_in_settled in Hin.
        destruct Hin as [(e & He & Hm)|H]; [eauto|].
        cbn [add_sleeps add_events polling_paid events start] in H. absent H.
      * cbn [caught timeout_error add_events events app In] in Hin.
        destruct Hin as [H|[H|H]]; try discriminate.
        -- inversion H. cbn. auto.
        -- cbn [add_sleeps add_events polling_paid events start] in H.
           absent H.
    + cbn [fixed_cleaned events In] in Hin.
      destruct Hin as [H|Hin]; [discriminate|].
      rewrite toast_error_in_settled in Hin.
      destruct Hin as [(e & He & Hm)|H]; [eauto|].
      cbn [fixed_paid events start] in H. absent H.
  - destruct (not_validated_message USDC env address isConfirmed r (start st)
                Hv) as (m & Hm & Hpe & Hfe).
    rewrite Hpe, Hfe in Hin. cbn in Hin.
    assert (msg = m) as -> by (intuition congruence).
    cbn in Hm. cbn. intuition.
Qed.

Lemma served_error_messages_witness :
  In (toast_error "Failed to generate image")
     (trace (snd (Polling.handleGenerate
                    (served_by model_down (fun s => s) (IdNumber 1)
                       1700000000000)
                    wallet already_confirmed idle_render
                    (start idle_render))))
  /\ In "Failed to generate image" shown_messages.
Proof.
  assert (H : In (toast_error "Failed to generate image")
                (trace (snd (Polling.handleGenerate
                               (served_by model_down (fun s => s)
                                  (IdNumber 1) 1700000000000)
                               wallet already_confirmed idle_render
                               (start idle_render))))).
  { vm_compute. auto 10. }
  split; [exact H|].
  exact (served_error_messages usdc_on_base model_down (fun s => s)
           (IdNumber 1) 1700000000000 wallet already_confirmed idle_render idle_render
           _ (or_introl H)).
Defined.

(** ** Sending ETH from the page *)

(** X16.  [handleSend] never throws and submits at most the transaction of
    the form: a transaction is submitted exactly when the amount is not
    empty, the address is one and [parseEther] accepts the amount, and it
    then carries that address and the parsed value, after which the dialog
    is closed, both fields are emptied and the toast is remembered.  In
    every other case the form is left as it was and one error toast is
    shown. *)
Theorem handleSend_sends_valid_form_only env r st :
  let w := snd (Page.handleSend env r (Page.start st)) in
  fst (Page.handleSend env r (Page.start st)) = Normal tt
  /\ (forall tx,
         In (Page.sendTransaction tx) (Page.trace w)
         <-> Page.amount r <> ""
             /\ Page.isAddress env (Page.toAddress r) = true
             /\ Page.parseEther env (Page.amount r) = inr (value tx)
             /\ to tx = Page.toAddress r
             /\ data tx = None)
  /\ ((exists tx, In (Page.sendTransaction tx) (Page.trace w))
      -> Page.state w = submitted env)
  /\ ((forall tx, ~ In (Page.sendTransaction tx) (Page.trace w))
      -> Page.state w = st
         /\ exists m d, Page.trace w = [Page.toast_error m d]).
Proof.
  unfold Page.handleSend.
  destruct (Page.amount r) as [|c a] eqn:Ha; cbn [truthy_string negb orb].
  { cbn. split; [reflexivity|]. split; [|split].
    - intros tx. split.
      + intros [H|[]]. discriminate.
      + intros [H _]. congruence.
    - intros (tx & [H|[]]). discriminate.
    - intros _. split; [reflexivity|]. eauto. }
  destruct (Page.isAddress env (Page.toAddress r)) eqn:Haddr; cbn [negb].
  2:{ cbn. split; [reflexivity|]. split; [|split].
      - intros tx. split.
        + intros [H|[]]. discriminate.
        + intros (_ & H & _). discriminate.
      - intros (tx & [H|[]]). discriminate.
      - intros _. split; [reflexivity|]. eauto. }
  cbv beta iota zeta delta
    [try_catch bind await Page.emit Page.modify Page.setToastId
     Page.setIsDialogOpen Page.setAmount Page.setToAddress].
  destruct (Page.parseEther env (String c a)) as [e|v] eqn:Hparse.
  - cbn. split; [reflexivity|]. split; [|split].
    + intros tx. split.
      * intros [H|[]]. discriminate.
      * intros (_ & _ & H & _). discriminate.
    + intros (tx & [H|[]]). discriminate.
    + intros _. split; [reflexivity|]. eauto.
  - cbn -[String.append]. split; [reflexivity|]. split; [|split].
    + intros tx. split.
      * intros [H|[H|[]]]; [|discriminate].
        inversion H. cbn. repeat split; congruence.
      * intros (_ & _ & H & Hto & Hdata). left.
        destruct tx as [t d v']. cbn in *. congruence.
    + intros _. reflexivity.
    + intros H. exfalso. eapply H. left. reflexivity.
Qed.

Lemma handleSend_sends_valid_form_only_witness :
  (exists tx,
      In (Page.sendTransaction tx)
         (Page.trace (snd (Page.handleSend one_recipient send_form
                             (Page.start send_form)))))
  /\ Page.state (snd (Page.handleSend one_recipient send_form
                        (Page.start send_form)))
     = submitted one_recipient.
Proof.
  assert (H : exists tx,
             In (Page.sendTransaction tx)
                (Page.trace (snd (Page.handleSend one_recipient send_form
                                    (Page.start send_form))))).
  { eexists. left. reflexivity. }
  split; [exact H|].
  exact (proj1 (proj2 (proj2 (handleSend_sends_valid_form_only
                                one_recipient send_form send_form))) H).
Defined.

(** The state [handleSend] leaves. *)
Lemma handleSend_sent_state env r st :
  let w := snd (Page.handleSend env r (Page.start st)) in
  ((forall tx, ~ In (Page.sendTransaction tx) (Page.trace w))
   -> Page.state w = st)
  /\ ((exists tx, In (Page.sendTransaction tx) (Page.trace w))
      -> Page.state w = submitted env).
Proof.
  unfold Page.handleSend.
  destruct (negb (truthy_string (Page.amount r))
            || negb (Page.isAddress env (Page.toAddress r))).
  { cbn. split; [reflexivity|]. intros (tx & [H|[]]). discriminate. }
  cbv beta iota zeta delta
    [try_catch bind await Page.emit Page.modify Page.setToastId
     Page.setIsDialogOpen Page.setAmount Page.setToAddress].
  destruct (Page.parseEther env (Page.amount r)) as [e|v].
  - cbn. split; [reflexivity|]. intros (tx & [H|[]]). discriminate.
  - cbn -[String.append]. split; [|reflexivity].
    intros H. exfalso. eapply H. left. reflexivity.
Qed.


(** X17.  After [handleSend] has submitted a transaction, the render of
    the state it left has both fields empty; when the receipt is confirmed
    in that render the effect announces "Sent  ETH to " with neither the
    amount nor the address, clears the identifier, resets the transaction
    and dismisses the pending toast, and it does nothing in the render that
    follows. *)
Theorem confirmation_after_send env r st tx :
  let sent := snd (Page.handleSend env r (Page.start st)) in
  In (Page.sendTransaction tx) (Page.trace sent) ->
  let confirmed :=
    snd (Page.confirmation_effect true (Page.state sent)
           (Page.start (Page.state sent))) in
  Page.trace confirmed
  = [Page.toast_success "Transaction successful!" "Sent  ETH to ";
     Page.resetTransaction;
     Page.toast_dismiss (Some (Page.toast_id env))]
  /\ Page.toastId (Page.state confirmed) = None
  /\ forall again w,
       Page.confirmation_effect again (Page.state confirmed) w
       = (Normal tt, w).
Proof.
  intros sent Hin.
  destruct (handleSend_sent_state env r st) as [_ Hs].
  fold sent in Hs. rewrite (Hs (ex_intro _ tx Hin)).
  cbn. split; [reflexivity|]. split; [reflexivity|].
  intros again w. reflexivity.
Qed.

Lemma confirmation_after_send_witness :
  In (Page.sendTransaction
        {| to := "0x1111111111111111111111111111111111111111";
           data := None;
           value := 10000000000000000 |})
     (Page.trace (snd (Page.handleSend one_recipient send_form
                         (Page.start send_form))))
  /\ Page.trace
       (snd (Page.confirmation_effect true
               (Page.state (snd (Page.handleSend one_recipient send_form
                                   (Page.start send_form))))
               (Page.start
                  (Page.state (snd (Page.handleSend one_recipient send_form
                                      (Page.start send_form)))))))
     = [Page.toast_success "Transaction successful!" "Sent  ETH to ";
        Page.resetTransaction;
        Page.toast_dismiss (Some (Page.toast_id one_recipient))].
Proof.
  assert (H : In (Page.sendTransaction
                    {| to := "0x1111111111111111111111111111111111111111";
                       data := None;
                       value := 10000000000000000 |})
                 (Page.trace (snd (Page.handleSend one_recipient send_form
                                     (Page.start send_form))))).
  { left. reflexivity. }
  split; [exact H|].
  exact (proj1 (confirmation_after_send one_recipient send_form send_form
                  _ H)).
Defined.

(** ** Saving an image *)

(** X18.  [downloadImage] never throws and ends with one toast.  The
    saving steps run, in order and with the object address revoked and the
    link removed, whenever [fetch] and [blob()] both resolve: the status of
    the response is not looked at, so the body of an error response is
    saved and announced as downloaded.  When either rejects nothing is
    created and the error toast is shown. *)
Theorem downloadImage_ignores_status env imageUrl filename :
  let run := Download.downloadImage env imageUrl filename [] in
  fst run = Normal tt
  /\ (forall response b,
         Download.fetch_result env imageUrl = inr response ->
         Download.blob response = inr b ->
         let link := {| Download.href := Download.object_url env b;
                        Download.download := filename |} in
         rev (snd run)
         = [Download.fetch imageUrl;
            Download.createObjectURL b;
            Download.appendChild link;
            Download.click link;
            Download.removeChild link;
            Download.revokeObjectURL (Download.object_url env b);
            Download.toast_success "Image downloaded!"])
  /\ ((forall response b,
          Download.fetch_result env imageUrl = inr response ->
          Download.blob response <> inr b) ->
      rev (snd run)
      = [Download.fetch imageUrl;
         Download.toast_error "Failed to download image"]).
Proof.
  unfold Download.downloadImage.
  cbv beta iota zeta delta [try_catch bind await ret throw Download.emit].
  destruct (Download.fetch_result env imageUrl) as [e|response] eqn:Hf.
  - cbn. split; [reflexivity|]. split; [discriminate|]. reflexivity.
  - cbv beta iota zeta.
    destruct (Download.blob response) as [e|b] eqn:Hb.
    + cbn. split; [reflexivity|]. split.
      * intros resp b [= <-] H. congruence.
      * reflexivity.
    + cbn. split; [reflexivity|]. split.
      * intros resp b' [= <-] H. rewrite Hb in H. inversion H. reflexivity.
      * intros H. exfalso. exact (H response b eq_refl Hb).
Qed.

Lemma downloadImage_ignores_status_witness :
  rev (snd (Download.downloadImage not_found_page
              "https://replicate.delivery/gone.png" "generated-image-1.webp"
              []))
  = [Download.fetch "https://replicate.delivery/gone.png";
     Download.createObjectURL [Byte.x4e; Byte.x6f];
     Download.appendChild
       {| Download.href := "blob:1";
          Download.download := "generated-image-1.webp" |};
     Download.click
       {| Download.href := "blob:1";
          Download.download := "generated-image-1.webp" |};
     Download.removeChild
       {| Download.href := "blob:1";
          Download.download := "generated-image-1.webp" |};
     Download.revokeObjectURL "blob:1";
     Download.toast_success "Image downloaded!"].
Proof.
  exact (proj1 (proj2 (downloadImage_ignores_status not_found_page
                         "https://replicate.delivery/gone.png"
                         "generated-image-1.webp"))
           {| Download.ok := false;
              Download.blob := inr [Byte.x4e; Byte.x6f] |}
           [Byte.x4e; Byte.x6f] eq_refl eq_refl).
Defined.
